(** * Crumbl cookie sales predictor: data loading, feature encoding and
      recommendation arithmetic of [crumbl_app.py]

    The first part embeds the script, top to bottom:
    - [Frame]: the one-row [pandas] frame that [make_prediction] fills in,
      with the three frame operations the function uses;
    - [Encoder]: the body of [make_prediction] up to the call of the model;
    - [Float64]: binary64 arithmetic as [numpy.float64] performs it;
    - [Recommend]: the percentage, the batch and staff counts and the choice
      of the recommended actions;
    - [Dataset], [Loader]: the historical table and [load_data];
    - [Session]: one press of the button, as statements over the globals of
      the script.

    The second part states and proves the properties of each. *)

From Stdlib Require Import String Ascii List ZArith Bool Lia SpecFloat.
Import ListNotations.
Local Open Scope string_scope.
Local Open Scope list_scope.
Local Open Scope Z_scope.

(** ** Python exceptions that the modelled code can meet *)

Inductive exn : Type :=
| KeyError (label : string)
| ValueError
| OverflowError
| FileNotFoundError
| ModelError.

(** ** One-row frames *)

Module Frame.

(** [pd.DataFrame(0, index=[0], columns=...)] has a single row, so a frame
    is the sequence of its columns, each a label with its one cell.  Labels
    may repeat, as in pandas. *)
Definition Row := list (string * Z).

Definition labels (r : Row) : list string := map fst r.
Definition values (r : Row) : list Z := map snd r.

(** [pd.DataFrame(0, index=[0], columns=cols)] *)
Definition zeros (cols : list string) : Row := map (fun c => (c, 0)) cols.

(** [name in frame.columns] *)
Definition has_column (name : string) (r : Row) : bool :=
  existsb (String.eqb name) (labels r).

(** [frame[name] = v]: every column labelled [name] receives [v]; when there
    is none a new column is appended on the right. *)
Definition setitem (name : string) (v : Z) (r : Row) : Row :=
  if has_column name r
  then map (fun c => if String.eqb (fst c) name then (fst c, v) else c) r
  else r ++ [(name, v)].

(** The columns selected by one key. *)
Definition pick (k : string) (r : Row) : Row :=
  filter (fun c => String.eqb (fst c) k) r.

Definition first_missing (keys : list string) (r : Row) : option string :=
  find (fun k => negb (has_column k r)) keys.

(** [frame[keys]] with a list of keys: [KeyError] when a key labels no
    column, otherwise, key after key, all the columns it labels. *)
Definition getitem_list (keys : list string) (r : Row) : exn + Row :=
  match first_missing keys r with
  | Some k => inl (KeyError k)
  | None => inr (flat_map (fun k => pick k r) keys)
  end.

(** The cell read under a label (0 when the label is absent). *)
Definition cell (name : string) (r : Row) : Z :=
  match find (fun c => String.eqb (fst c) name) r with
  | Some c => snd c
  | None => 0
  end.

(** The part of a frame that a selection by [keys] can see. *)
Definition restrict (keys : list string) (r : Row) : Row :=
  filter (fun c => existsb (String.eqb (fst c)) keys) r.

End Frame.

(** ** The feature encoder: [make_prediction], lines 126-146 *)

Module Encoder.
Import Frame.

(** The sidebar widgets that [make_prediction] reads. *)
Record Selection : Type := {
  flavor_selected : string;
  weather_selected : string;
  location_selected : string;
  is_holiday : bool;
  social_mentions : Z
}.

Definition weather_col (sel : Selection) : string := ("weather_" ++ weather_selected sel)%string.
Definition flavor_col (sel : Selection) : string := ("flavor_" ++ flavor_selected sel)%string.
Definition location_col (sel : Selection) : string := ("location_" ++ location_selected sel)%string.

(** [input_data['holiday'] = int(is_holiday)] *)
Definition set_holiday (sel : Selection) (r : Row) : Row :=
  setitem "holiday" (Z.b2z (is_holiday sel)) r.

(** [input_data['social_media_mentions'] = social_mentions] *)
Definition set_social (sel : Selection) (r : Row) : Row :=
  setitem "social_media_mentions" (social_mentions sel) r.

(** [if col in input_data.columns: input_data[col] = 1] *)
Definition set_indicator (col : string) (r : Row) : Row :=
  if has_column col r then setitem col 1 r else r.

Definition set_weather (sel : Selection) : Row -> Row := set_indicator (weather_col sel).
Definition set_flavor (sel : Selection) : Row -> Row := set_indicator (flavor_col sel).
Definition set_location (sel : Selection) : Row -> Row := set_indicator (location_col sel).

(** The frame just before the final reordering. *)
Definition input_row (feature_columns : list string) (sel : Selection) : Row :=
  set_location sel
    (set_flavor sel
      (set_weather sel
        (set_social sel
          (set_holiday sel (zeros feature_columns))))).

(** [input_data = input_data[feature_columns]] *)
Definition encode (feature_columns : list string) (sel : Selection) : exn + Row :=
  getitem_list feature_columns (input_row feature_columns sel).

(** The cell of [input_row] under a label of the schema. *)
Definition expected (sel : Selection) (cols : list string) (name : string) : Z :=
  if String.eqb name (location_col sel) && existsb (String.eqb (location_col sel)) cols then 1
  else if String.eqb name (flavor_col sel) && existsb (String.eqb (flavor_col sel)) cols then 1
  else if String.eqb name (weather_col sel) && existsb (String.eqb (weather_col sel)) cols then 1
  else if String.eqb name "social_media_mentions" then social_mentions sel
  else if String.eqb name "holiday" then Z.b2z (is_holiday sel)
  else 0.

End Encoder.

(** A schema and a selection for executable examples. *)

Module EncoderExamples.
Import Encoder.

Definition schema : list string :=
  ["holiday"; "social_media_mentions"; "weather_Sunny"; "weather_Rainy";
   "flavor_Oreo"; "flavor_Pink Sugar"; "location_Utah"; "location_Texas"].

Definition sel : Selection :=
  {| flavor_selected := "Oreo"; weather_selected := "Rainy";
     location_selected := "Texas"; is_holiday := true; social_mentions := 42 |}.

End EncoderExamples.

(** ** IEEE 754 binary64, the arithmetic of [numpy.float64]

    The historical average comes out of [Series.mean()], a [numpy.float64],
    so every operation of the recommendation arithmetic is a binary64
    operation of numpy.  The operations are those of the standard library's
    executable specification of IEEE 754, at precision 53 and exponent bound
    1024; [fmod], [floor] and [copysign] of the C library are written out on
    the same representation. *)

Module Float64.

Definition float : Type := spec_float.

Definition prec : Z := 53.
Definition emax : Z := 1024.

Definition add : float -> float -> float := SFadd prec emax.
Definition sub : float -> float -> float := SFsub prec emax.
Definition mul : float -> float -> float := SFmul prec emax.
(** numpy's scalar division: a zero divisor gives an infinity or a NaN
    (and a [RuntimeWarning]), never an exception. *)
Definition div : float -> float -> float := SFdiv prec emax.
Definition abs : float -> float := SFabs.
Definition ltb : float -> float -> bool := SFltb.
Definition eqb : float -> float -> bool := SFeqb.
Definition valid (x : float) : bool := valid_binary prec emax x.

(** Conversion of an integer (round to nearest even). *)
Definition of_Z (n : Z) : float := binary_normalize prec emax n 0 false.

Definition half : float := binary_normalize prec emax 1 (-1) false.

(** C truth value of a floating-point number: [x != 0], true for a NaN. *)
Definition nonzero (x : float) : bool :=
  match x with
  | S754_zero _ => false
  | _ => true
  end.

Definition sign_bit (x : float) : bool :=
  match x with
  | S754_zero s | S754_infinity s | S754_finite s _ _ => s
  | S754_nan => false
  end.

(** [copysign(0, y)] *)
Definition copysign_zero (y : float) : float := S754_zero (sign_bit y).

(** C [fmod]: the exact remainder [x - n*y], [n] the quotient truncated
    towards zero; the result has the sign of [x]. *)
Definition fmod (x y : float) : float :=
  match x, y with
  | S754_nan, _ | _, S754_nan => S754_nan
  | S754_infinity _, _ => S754_nan
  | _, S754_zero _ => S754_nan
  | _, S754_infinity _ => x
  | S754_zero _, S754_finite _ _ _ => x
  | S754_finite sx mx ex, S754_finite _ my ey =>
      let e := Z.min ex ey in
      let r := (Zpos mx * 2 ^ (ex - e)) mod (Zpos my * 2 ^ (ey - e)) in
      if r =? 0 then S754_zero sx
      else binary_normalize prec emax (cond_Zopp sx r) e false
  end.

(** C [floor]. *)
Definition floor (x : float) : float :=
  match x with
  | S754_finite s m e =>
      if 0 <=? e then x
      else
        let n := cond_Zopp s (Zpos m) / 2 ^ (- e) in
        if n =? 0 then S754_zero s else binary_normalize prec emax n 0 false
  | _ => x
  end.

(** [npy_divmod], quotient part (also [float_divmod] of CPython). *)
Definition npy_divmod (a b : float) : float :=
  let mod_ := fmod a b in
  if negb (nonzero b) then div a b
  else
    let div0 := div (sub a mod_) b in
    let div1 :=
      if nonzero mod_
      then if negb (Bool.eqb (ltb b (S754_zero false)) (ltb mod_ (S754_zero false)))
           then sub div0 (of_Z 1) else div0
      else div0 in
    if nonzero div1
    then
      let floordiv := floor div1 in
      if ltb half (sub div1 floordiv) then add floordiv (of_Z 1) else floordiv
    else copysign_zero (div a b).

(** [a // b] on [numpy.float64] ([npy_floor_divide]). *)
Definition floor_divide (a b : float) : float :=
  if negb (nonzero b) then div a b else npy_divmod a b.

(** [int(x)]: truncation towards zero; a NaN raises [ValueError], an
    infinity [OverflowError]. *)
Definition to_int (x : float) : exn + Z :=
  match x with
  | S754_nan => inl ValueError
  | S754_infinity _ => inl OverflowError
  | S754_zero _ => inr 0
  | S754_finite s m e =>
      inr (cond_Zopp s (if 0 <=? e then Zpos m * 2 ^ e else Zpos m / 2 ^ (- e)))
  end.

(** [math.floor] of the exact quotient of a finite [x] by the integer [d],
    as an integer. *)
Definition exact_floor_quot (x : float) (d : Z) : Z :=
  match x with
  | S754_finite s m e =>
      if 0 <=? e then (cond_Zopp s (Zpos m) * 2 ^ e) / d
      else cond_Zopp s (Zpos m) / (d * 2 ^ (- e))
  | _ => 0
  end.

(** The value of a finite float in units of 2^-1074, the smallest positive
    binary64. *)
Definition sval (x : float) : Z :=
  match x with
  | S754_finite s m e => cond_Zopp s (Zpos m * 2 ^ (e + 1074))
  | _ => 0
  end.

(** [m * 2^e] is the canonical binary64 representation of the integer [n]. *)
Definition int_repr (n : Z) (m : positive) (e : Z) : Prop :=
  bounded prec emax m e = true /\ Zpos m * 2 ^ (e + 1074) = n * 2 ^ 1074.

End Float64.

(** ** The recommendation arithmetic, lines 172-240 *)

Module Recommend.
Import Float64.

(** [change_pct = (prediction / avg_sales - 1) * 100] *)
Definition change_pct (prediction avg_sales : float) : float :=
  mul (sub (div prediction avg_sales) (of_Z 1)) (of_Z 100).

(** [int(prediction//12)] *)
Definition batches (prediction : float) : exn + Z :=
  to_int (floor_divide prediction (of_Z 12)).

(** [int(prediction//150)] *)
Definition staff_estimate (prediction : float) : exn + Z :=
  to_int (floor_divide prediction (of_Z 150)).

(** The three boxes of the "Recommended Actions" card. *)
Inductive Action : Type :=
| Surge (batches staff : Z)
| Slump
| Steady.

(** Lines 224-240. *)
Definition action_bundle (prediction pct : float) : exn + Action :=
  if ltb (of_Z 15) pct then
    match batches prediction with
    | inl e => inl e
    | inr b =>
        match staff_estimate prediction with
        | inl e => inl e
        | inr s => inr (Surge b s)
        end
    end
  else if ltb pct (of_Z (-10)) then inr Slump
  else inr Steady.

Record Recommendation : Type := {
  rec_change_pct : float;
  rec_batches : Z;
  rec_action : Action
}.

(** Lines 172-240 without the rendering. *)
Definition evaluate (prediction historical_average : float) : exn + Recommendation :=
  let pct := change_pct prediction historical_average in
  match batches prediction with
  | inl e => inl e
  | inr b =>
      match action_bundle prediction pct with
      | inl e => inl e
      | inr act => inr {| rec_change_pct := pct; rec_batches := b; rec_action := act |}
      end
  end.

(** The value computed for [evaluate(180, 150)]: 20 - 2^-48, which prints
    as 19.999999999999996. *)
Definition twenty_less_one_ulp : float := S754_finite false 5629499534213119 (-48).

End Recommend.

(** ** The historical dataset, a [pandas.DataFrame] *)

Module Dataset.
Import Float64.

Inductive Cell : Type :=
| Str (s : string)
| Int (z : Z)
| Num (x : float).

Definition Column : Type := list Cell.

(** Columns in order, each with its label; [nrows] is [len(df)]. *)
Record DataFrame : Type := {
  nrows : nat;
  columns : list (string * Column)
}.

Definition column_labels (d : DataFrame) : list string := map fst (columns d).

(** [name in df.columns] *)
Definition has_column (name : string) (d : DataFrame) : bool :=
  existsb (String.eqb name) (column_labels d).

(** [df.rename(columns={old: new})]: a new frame, labels replaced. *)
Definition rename (old new : string) (d : DataFrame) : DataFrame :=
  {| nrows := nrows d;
     columns := map (fun c => (if String.eqb (fst c) old then new else fst c, snd c))
                    (columns d) |}.

(** [df[name] = vals] *)
Definition set_column (name : string) (vals : Column) (d : DataFrame) : DataFrame :=
  {| nrows := nrows d;
     columns :=
       if has_column name d
       then map (fun c => if String.eqb (fst c) name then (fst c, vals) else c) (columns d)
       else columns d ++ [(name, vals)] |}.

(** [df[name]] *)
Definition get_column (name : string) (d : DataFrame) : exn + Column :=
  match find (fun c => String.eqb (fst c) name) (columns d) with
  | Some c => inr (snd c)
  | None => inl (KeyError name)
  end.

(** [series == value] against a string. *)
Definition eq_str (v : string) (c : Cell) : bool :=
  match c with
  | Str s => String.eqb s v
  | _ => false
  end.

Fixpoint mask_filter {A : Type} (mask : list bool) (l : list A) : list A :=
  match mask, l with
  | true :: mask', x :: l' => x :: mask_filter mask' l'
  | false :: mask', _ :: l' => mask_filter mask' l'
  | _, _ => []
  end.

(** [df[mask]]: a new frame with the rows where the mask holds. *)
Definition select_rows (mask : list bool) (d : DataFrame) : DataFrame :=
  {| nrows := length (filter (fun b => b) (firstn (nrows d) mask));
     columns := map (fun c => (fst c, mask_filter mask (snd c))) (columns d) |}.

Definition cell_eqb (a b : Cell) : bool :=
  match a, b with
  | Str s, Str t => String.eqb s t
  | Int x, Int y => Z.eqb x y
  | Num x, Num y => SFeqb x y
  | _, _ => false
  end.

(** Order of group keys; the keys of one column are of one kind. *)
Definition cell_leb (a b : Cell) : bool :=
  match a, b with
  | Str s, Str t => String.leb s t
  | Int x, Int y => Z.leb x y
  | Num x, Num y => SFleb x y
  | Str _, _ => false
  | _, Str _ => true
  | Int _, Num _ => true
  | Num _, Int _ => false
  end.

Fixpoint insert_key (k : Cell) (l : list Cell) : list Cell :=
  match l with
  | [] => [k]
  | h :: t => if cell_eqb k h then l
              else if cell_leb k h then k :: l else h :: insert_key k t
  end.

(** Sorted distinct keys. *)
Definition group_keys (keys : Column) : list Cell :=
  fold_right insert_key [] keys.

Definition group_values (k : Cell) (keys vals : Column) : Column :=
  mask_filter (map (cell_eqb k) keys) vals.

(** A [Series] indexed by group key. *)
Definition Series : Type := list (Cell * float).

(** [series[key]] *)
Definition series_get (key : string) (s : Series) : exn + float :=
  match find (fun kv => eq_str key (fst kv)) s with
  | Some kv => inr (snd kv)
  | None => inl (KeyError key)
  end.

Section GroupBy.
(** The mean kernel of pandas, with the error it raises on cells that are
    not numbers. *)
Variable mean : Column -> exn + float.

Fixpoint mean_of_groups (ks : list Cell) (keys vals : Column) : exn + Series :=
  match ks with
  | [] => inr []
  | k :: ks' =>
      match mean (group_values k keys vals) with
      | inl e => inl e
      | inr m =>
          match mean_of_groups ks' keys vals with
          | inl e => inl e
          | inr rest => inr ((k, m) :: rest)
          end
      end
  end.

(** [d.groupby(by)[target].mean()] *)
Definition groupby_mean (by_ target : string) (d : DataFrame) : exn + Series :=
  match get_column by_ d with
  | inl e => inl e
  | inr keys =>
      match get_column target d with
      | inl e => inl e
      | inr vals => mean_of_groups (group_keys keys) keys vals
      end
  end.
End GroupBy.

(** [df[df[col] == value]] *)
Definition where_eq (col value : string) (d : DataFrame) : exn + DataFrame :=
  match get_column col d with
  | inl e => inl e
  | inr c => inr (select_rows (map (eq_str value) c) d)
  end.

End Dataset.

(** ** [load_data], lines 49-59 *)

Module Loader.
Import Dataset.

Section Load.
(** [numpy.random]: the generator state, and [randint(low, high, size)]
    drawing [size] integers and advancing the state. *)
Variable RandomState : Type.
Variable randint : Z -> Z -> nat -> RandomState -> list Z * RandomState.

(** The body of the [try] block, on the frame that [read_csv] returned. *)
Definition normalize (d : DataFrame) (g : RandomState) : DataFrame * RandomState :=
  if has_column "sales" d then (rename "sales" "units_sold" d, g)
  else if negb (has_column "units_sold" d) then
    let '(draws, g') := randint 50 200 (nrows d) g in
    (set_column "units_sold" (map Int draws) d, g')
  else (d, g).

(** [source] is the outcome of [pd.read_csv]; [None] is [st.stop()] after
    the error message. *)
Definition load_data (source : exn + DataFrame) (g : RandomState)
  : option DataFrame * RandomState :=
  match source with
  | inl _ => (None, g)
  | inr d => let '(d', g') := normalize d g in (Some d', g')
  end.
End Load.

(** A linear congruential generator standing for [numpy.random] in
    executable examples. *)
Definition lcg_next (g : Z) : Z := (1103515245 * g + 12345) mod 2147483648.

Fixpoint lcg_randint (low high : Z) (size : nat) (g : Z) : list Z * Z :=
  match size with
  | O => ([], g)
  | S n => let '(rest, g') := lcg_randint low high n (lcg_next g) in
           ((low + g mod (high - low)) :: rest, g')
  end.

End Loader.

(** ** One run of the script body after loading, lines 124-283 *)

Module Session.
Import Frame Encoder Float64 Recommend Dataset.

(** What the page shows, in order of the calls. *)
Inductive Widget : Type :=
| ErrorBox (e : exn)
| ScenarioSummary (flavor weather location : string) (holiday : bool)
| MetricPredicted (x : float)
| MetricVsAverage (x : float)
| MetricBatches (n : Z)
| SuccessBox (batches staff : Z) (flavor : string)
| WarningBox
| InfoBox
| LineChart (data : Series)
| BoxChart (xs ys : Column)
| BarChart (data : Series).

(** The module-level state of the script. *)
Record World : Type := {
  df : DataFrame;
  feature_columns : list string;
  selection : Selection;
  page : list Widget
}.

(** Statements: read and write the globals, or raise. *)
Definition M (A : Type) : Type := World -> (exn + A) * World.

Definition ret {A : Type} (a : A) : M A := fun w => (inr a, w).

Definition bind {A B : Type} (c : M A) (k : A -> M B) : M B :=
  fun w => match c w with
           | (inr a, w') => k a w'
           | (inl e, w') => (inl e, w')
           end.

Definition lift {A : Type} (r : exn + A) : M A := fun w => (r, w).

Definition read {A : Type} (f : World -> A) : M A := fun w => (inr (f w), w).

Definition show (x : Widget) : M unit :=
  fun w => (inr tt, {| df := df w; feature_columns := feature_columns w;
                       selection := selection w; page := page w ++ [x] |}).

Definition try_except {A : Type} (body : M A) (handler : exn -> M A) : M A :=
  fun w => match body w with
           | (inl e, w') => handler e w'
           | r => r
           end.

Declare Scope session_scope.
Delimit Scope session_scope with session.
Notation "x <- c ;; k" := (bind c (fun x => k))
  (at level 61, c at next level, right associativity) : session_scope.
Notation "c ;; k" := (bind c (fun _ => k))
  (at level 61, right associativity) : session_scope.
Local Open Scope session_scope.

Definition when (b : bool) (c : M unit) : M unit := if b then c else ret tt.

Section Run.
(** [model.predict(input_data)[0]], with the exception it may raise. *)
Variable predict : Row -> exn + float.
(** The mean kernel of pandas. *)
Variable mean : Column -> exn + float.

(** Lines 126-146: the frame handed to the model. *)
Definition encode_input : M Row :=
  cols <- read feature_columns ;;
  sel <- read selection ;;
  lift (encode cols sel).

(** Lines 124-151. *)
Definition make_prediction : M (option float) :=
  try_except
    (input_data <- encode_input ;;
     y <- lift (predict input_data) ;;
     ret (Some y))
    (fun e => show (ErrorBox e) ;; ret None).

(** [if prediction:] on [None] or a [numpy.float64]. *)
Definition truthy (prediction : option float) : bool :=
  match prediction with
  | None => false
  | Some x => nonzero x
  end.

(** Lines 171-216. *)
Definition prediction_card (prediction : float) : M float :=
  d <- read df ;;
  sel <- read selection ;;
  means <- lift (groupby_mean mean "flavor" "units_sold" d) ;;
  avg_sales <- lift (series_get (flavor_selected sel) means) ;;
  let pct := change_pct prediction avg_sales in
  show (ScenarioSummary (flavor_selected sel) (weather_selected sel)
          (location_selected sel) (is_holiday sel)) ;;
  show (MetricPredicted prediction) ;;
  show (MetricVsAverage pct) ;;
  b <- lift (batches prediction) ;;
  show (MetricBatches b) ;;
  ret pct.

(** Lines 219-242. *)
Definition action_card (prediction pct : float) : M unit :=
  sel <- read selection ;;
  act <- lift (action_bundle prediction pct) ;;
  match act with
  | Surge b s => show (SuccessBox b s (flavor_selected sel))
  | Slump => show WarningBox
  | Steady => show InfoBox
  end.

(** Lines 245-283. *)
Definition charts : M unit :=
  d <- read df ;;
  sel <- read selection ;;
  when (has_column "week" d)
    (rows <- lift (where_eq "flavor" (flavor_selected sel) d) ;;
     weekly_data <- lift (groupby_mean mean "week" "units_sold" rows) ;;
     show (LineChart weekly_data)) ;;
  rows <- lift (where_eq "flavor" (flavor_selected sel) d) ;;
  xs <- lift (get_column "weather" rows) ;;
  ys <- lift (get_column "units_sold" rows) ;;
  show (BoxChart xs ys) ;;
  rows <- lift (where_eq "flavor" (flavor_selected sel) d) ;;
  loc_data <- lift (groupby_mean mean "location" "units_sold" rows) ;;
  show (BarChart loc_data).

(** The block under [if prediction:]. *)
Definition results (prediction : option float) : M unit :=
  if truthy prediction then
    match prediction with
    | Some x =>
        pct <- prediction_card x ;;
        action_card x pct ;;
        charts
    | None => ret tt
    end
  else ret tt.

(** One press of the button, lines 166-283. *)
Definition generate : M unit :=
  prediction <- make_prediction ;;
  results prediction.

End Run.

(** A statement that leaves the loaded dataset, the schema and the
    selection as they are. *)
Definition read_only {A : Type} (c : M A) : Prop :=
  forall w, df (snd (c w)) = df w
            /\ feature_columns (snd (c w)) = feature_columns w
            /\ selection (snd (c w)) = selection w.

End Session.

(** A small dataset, model and mean for executable examples. *)

Module SessionExamples.
Import Frame Encoder Float64 Dataset Session.

Definition history : DataFrame :=
  {| nrows := 4;
     columns :=
       [("flavor", [Str "Oreo"; Str "Mint"; Str "Oreo"; Str "Mint"]);
        ("weather", [Str "Rainy"; Str "Sunny"; Str "Sunny"; Str "Rainy"]);
        ("location", [Str "Texas"; Str "Texas"; Str "Utah"; Str "Utah"]);
        ("units_sold", [Int 140; Int 90; Int 160; Int 110])] |}.

(** Mean of integer cells: the sum and the count converted, then divided. *)
Definition int_mean (c : Column) : exn + float :=
  let total := fold_right (fun x acc => match x with Int z => z + acc | _ => acc end) 0 c in
  inr (div (of_Z total) (of_Z (Z.of_nat (length c)))).

(** A model that answers [y] whatever its input. *)
Definition constant_model (y : float) (input : Row) : exn + float := inr y.

Definition world : World :=
  {| df := history;
     feature_columns := EncoderExamples.schema;
     selection := EncoderExamples.sel;
     page := [] |}.

End SessionExamples.

(** ** The sidebar, lines 77-118 *)

Module Sidebar.
Import Dataset Encoder.

(** [sorted(df[col].unique())], the options of a select box. *)
Definition options (col : string) (d : DataFrame) : exn + list Cell :=
  match get_column col d with
  | inl e => inl e
  | inr c => inr (group_keys c)
  end.

(** The three select boxes, built one after the other: flavor, weather,
    location. *)
Definition select_boxes (d : DataFrame) : exn + (list Cell * list Cell * list Cell) :=
  match options "flavor" d with
  | inl e => inl e
  | inr flavors =>
      match options "weather" d with
      | inl e => inl e
      | inr weathers =>
          match options "location" d with
          | inl e => inl e
          | inr locations => inr (flavors, weathers, locations)
          end
      end
  end.

(** What the widgets can hand to the script: one option of each select box
    and a slider position between 0 and 100. *)
Definition offered (d : DataFrame) (sel : Selection) : Prop :=
  exists flavors weathers locations,
    select_boxes d = inr (flavors, weathers, locations)
    /\ In (Str (flavor_selected sel)) flavors
    /\ In (Str (weather_selected sel)) weathers
    /\ In (Str (location_selected sel)) locations
    /\ 0 <= social_mentions sel <= 100.

(** A column of strings. *)
Definition is_str (c : Cell) : bool :=
  match c with
  | Str _ => true
  | _ => false
  end.

(** Consecutive keys increase strictly. *)
Fixpoint increasing (l : list Cell) : bool :=
  match l with
  | a :: (b :: _) as t => cell_leb a b && negb (cell_eqb a b) && increasing t
  | _ => true
  end.

End Sidebar.

(** ** What a run leaves on the page *)

Module SessionView.
Import Frame Encoder Float64 Dataset Session.

(** The state after [added] has been shown on the page. *)
Definition with_page (w : World) (added : list Widget) : World :=
  {| df := df w; feature_columns := feature_columns w;
     selection := selection w; page := page w ++ added |}.

(** A statement whose only effect is to show widgets. *)
Definition only_shows {A : Type} (c : M A) : Prop :=
  forall w, exists added, snd (c w) = with_page w added.

End SessionView.

(** * Properties *)

(** ** Frames *)

Module FrameFacts.
Import Frame.

Lemma has_column_In name r : has_column name r = true <-> In name (labels r).
Proof.
  unfold has_column. rewrite existsb_exists. split.
  - intros (x & Hx & E). apply String.eqb_eq in E. now subst.
  - intros H. exists name. split; [assumption | apply String.eqb_refl].
Qed.

Lemma has_column_false name r : has_column name r = false <-> ~ In name (labels r).
Proof.
  rewrite <- has_column_In. destruct (has_column name r); split; congruence.
Qed.

Lemma labels_zeros cols : labels (zeros cols) = cols.
Proof.
  unfold labels, zeros. rewrite map_map. simpl. apply map_id.
Qed.

Lemma labels_setitem name v r :
  labels (setitem name v r) = if has_column name r then labels r else labels r ++ [name].
Proof.
  unfold setitem. destruct (has_column name r).
  - unfold labels. rewrite map_map. apply map_ext. intros [k x]. simpl.
    now destruct (String.eqb k name).
  - unfold labels. now rewrite map_app.
Qed.

Lemma labels_setitem_incl name v r : incl (labels r) (labels (setitem name v r)).
Proof.
  rewrite labels_setitem. destruct (has_column name r).
  - apply incl_refl.
  - apply incl_appl, incl_refl.
Qed.

Lemma cell_zeros k cols : cell k (zeros cols) = 0.
Proof.
  unfold cell, zeros. induction cols as [|c cols IH]; simpl; [reflexivity|].
  destruct (String.eqb c k); [reflexivity | exact IH].
Qed.

Lemma cell_absent k r : ~ In k (labels r) -> find (fun c => String.eqb (fst c) k) r = None.
Proof.
  induction r as [|[n x] r IH]; simpl; intros H; [reflexivity|].
  destruct (String.eqb n k) eqn:E.
  - apply String.eqb_eq in E. tauto.
  - apply IH. tauto.
Qed.

Lemma cell_app_absent k r v : ~ In k (labels r) -> cell k (r ++ [(k, v)]) = v.
Proof.
  unfold cell. induction r as [|[n x] r IH]; simpl; intros H.
  - now rewrite String.eqb_refl.
  - destruct (String.eqb n k) eqn:E.
    + apply String.eqb_eq in E. tauto.
    + apply IH. tauto.
Qed.

Lemma cell_app_other k n r v : k <> n -> cell k (r ++ [(n, v)]) = cell k r.
Proof.
  unfold cell. intros H. induction r as [|[m x] r IH]; simpl.
  - apply String.eqb_neq in H. rewrite String.eqb_sym in H. now rewrite H.
  - destruct (String.eqb m k); [reflexivity | exact IH].
Qed.

Lemma cell_map_set_same k v r :
  In k (labels r) ->
  cell k (map (fun c => if String.eqb (fst c) k then (fst c, v) else c) r) = v.
Proof.
  unfold cell. induction r as [|[m x] r IH]; simpl; intros H; [tauto|].
  destruct (String.eqb m k) eqn:E; simpl.
  - now rewrite E.
  - rewrite E. apply IH. destruct H as [H|H]; [|assumption].
    subst. now rewrite String.eqb_refl in E.
Qed.

Lemma cell_map_set_other k n v r :
  k <> n ->
  cell k (map (fun c => if String.eqb (fst c) n then (fst c, v) else c) r) = cell k r.
Proof.
  unfold cell. intros H. induction r as [|[m x] r IH]; simpl; [reflexivity|].
  destruct (String.eqb m n) eqn:E; simpl.
  - apply String.eqb_eq in E. subst m.
    apply String.eqb_neq in H. rewrite String.eqb_sym in H. rewrite H. exact IH.
  - destruct (String.eqb m k); [reflexivity | exact IH].
Qed.

(** Reading after an assignment. *)
Lemma cell_setitem k name v r :
  cell k (setitem name v r) = if String.eqb k name then v else cell k r.
Proof.
  unfold setitem. destruct (String.eqb k name) eqn:E.
  - apply String.eqb_eq in E. subst k.
    destruct (has_column name r) eqn:Hc.
    + apply cell_map_set_same. now apply has_column_In.
    + apply cell_app_absent. now apply has_column_false.
  - apply String.eqb_neq in E.
    destruct (has_column name r).
    + now apply cell_map_set_other.
    + now apply cell_app_other.
Qed.

Lemma pick_absent k r : ~ In k (labels r) -> pick k r = [].
Proof.
  unfold pick. induction r as [|[n x] r IH]; simpl; intros H; [reflexivity|].
  destruct (String.eqb n k) eqn:E.
  - apply String.eqb_eq in E. tauto.
  - apply IH. tauto.
Qed.

(** With distinct labels a key selects the one column it names. *)
Lemma pick_unique k r :
  NoDup (labels r) -> In k (labels r) -> pick k r = [(k, cell k r)].
Proof.
  unfold pick, cell. induction r as [|[n x] r IH]; simpl; intros Hnd Hin; [tauto|].
  inversion Hnd as [|? ? Hn Hnd']; subst.
  destruct (String.eqb n k) eqn:E.
  - apply String.eqb_eq in E. subst n. simpl.
    f_equal. now apply pick_absent.
  - apply IH; [assumption|]. destruct Hin as [Hin|Hin]; [|assumption].
    subst. now rewrite String.eqb_refl in E.
Qed.

Lemma first_missing_none keys r :
  incl keys (labels r) -> first_missing keys r = None.
Proof.
  unfold first_missing. intros H.
  destruct (find _ keys) as [k|] eqn:F; [|reflexivity].
  apply find_some in F. destruct F as [Hk Hm].
  apply H, has_column_In in Hk. rewrite Hk in Hm. discriminate.
Qed.

Lemma flat_map_pick_unique keys r :
  NoDup (labels r) -> incl keys (labels r) ->
  flat_map (fun k => pick k r) keys = map (fun k => (k, cell k r)) keys.
Proof.
  intros Hnd. induction keys as [|k keys IH]; simpl; intros H; [reflexivity|].
  rewrite pick_unique; [|assumption|apply H; now left].
  simpl. f_equal. apply IH. intros x Hx. apply H. now right.
Qed.

(** Selection by the frame's own distinct labels. *)
Lemma getitem_list_unique keys r :
  NoDup (labels r) -> incl keys (labels r) ->
  getitem_list keys r = inr (map (fun k => (k, cell k r)) keys).
Proof.
  intros Hnd H. unfold getitem_list.
  rewrite first_missing_none by assumption.
  now rewrite flat_map_pick_unique.
Qed.

(** *** What a selection by [keys] sees of a frame *)

Lemma mem_In k keys : existsb (String.eqb k) keys = true <-> In k keys.
Proof.
  rewrite existsb_exists. split.
  - intros (x & Hx & E). apply String.eqb_eq in E. now subst.
  - intros H. exists k. split; [assumption | apply String.eqb_refl].
Qed.

Lemma has_column_restrict keys k r :
  In k keys -> has_column k (restrict keys r) = has_column k r.
Proof.
  intros Hk. unfold has_column, restrict, labels.
  induction r as [|[n x] r IH]; simpl; [reflexivity|].
  destruct (existsb (String.eqb n) keys) eqn:E; simpl.
  - now rewrite IH.
  - destruct (String.eqb k n) eqn:F; [|exact IH].
    apply String.eqb_eq in F. subst n.
    apply mem_In in Hk. congruence.
Qed.

Lemma pick_restrict keys k r : In k keys -> pick k (restrict keys r) = pick k r.
Proof.
  intros Hk. unfold pick, restrict.
  induction r as [|[n x] r IH]; simpl; [reflexivity|].
  destruct (existsb (String.eqb n) keys) eqn:E; simpl.
  - now rewrite IH.
  - destruct (String.eqb n k) eqn:F; [|exact IH].
    apply String.eqb_eq in F. subst n.
    apply mem_In in Hk. congruence.
Qed.

(** A selection only depends on the columns its keys name. *)
Lemma getitem_list_restrict keys r :
  getitem_list keys r = getitem_list keys (restrict keys r).
Proof.
  unfold getitem_list, first_missing.
  assert (G : forall ks, incl ks keys ->
    find (fun k => negb (has_column k r)) ks
      = find (fun k => negb (has_column k (restrict keys r))) ks
    /\ flat_map (fun k => pick k r) ks
      = flat_map (fun k => pick k (restrict keys r)) ks).
  { induction ks as [|k ks IH]; simpl; intros H; [split; reflexivity|].
    assert (Hk : In k keys) by (apply H; now left).
    destruct IH as [IH1 IH2]; [intros x Hx; apply H; now right|].
    rewrite has_column_restrict, pick_restrict by assumption.
    rewrite IH1, IH2. split; reflexivity. }
  destruct (G keys (incl_refl _)) as [G1 G2]. now rewrite G1, G2.
Qed.

Lemma restrict_app keys r1 r2 : restrict keys (r1 ++ r2) = restrict keys r1 ++ restrict keys r2.
Proof. apply filter_app. Qed.

Lemma restrict_map_set keys name v r :
  restrict keys (map (fun c => if String.eqb (fst c) name then (fst c, v) else c) r)
  = map (fun c => if String.eqb (fst c) name then (fst c, v) else c) (restrict keys r).
Proof.
  unfold restrict. induction r as [|[n x] r IH]; simpl; [reflexivity|].
  destruct (String.eqb n name) eqn:E; simpl;
    destruct (existsb (String.eqb n) keys); simpl; rewrite ?E, IH; reflexivity.
Qed.

Lemma map_set_absent name v r :
  ~ In name (labels r) ->
  map (fun c => if String.eqb (fst c) name then (fst c, v) else c) r = r.
Proof.
  induction r as [|[n x] r IH]; simpl; intros H; [reflexivity|].
  destruct (String.eqb n name) eqn:E.
  - apply String.eqb_eq in E. tauto.
  - f_equal. apply IH. tauto.
Qed.

Lemma labels_restrict_In keys k r : In k (labels (restrict keys r)) -> In k keys.
Proof.
  unfold labels, restrict. rewrite in_map_iff. intros ([n x] & E & H).
  apply filter_In in H. destruct H as [_ H]. simpl in *. subst. now apply mem_In.
Qed.

(** An assignment under a label outside [keys] is invisible to the
    selection. *)
Lemma restrict_setitem_out keys name v r :
  ~ In name keys -> restrict keys (setitem name v r) = restrict keys r.
Proof.
  intros H. unfold setitem. destruct (has_column name r).
  - rewrite restrict_map_set. apply map_set_absent.
    intros Hin. apply H. eapply labels_restrict_In. exact Hin.
  - rewrite restrict_app. simpl.
    destruct (existsb (String.eqb name) keys) eqn:E.
    + apply mem_In in E. tauto.
    + apply app_nil_r.
Qed.

(** An assignment under a label of [keys] commutes with the restriction. *)
Lemma restrict_setitem_in keys name v r :
  In name keys -> restrict keys (setitem name v r) = setitem name v (restrict keys r).
Proof.
  intros H. unfold setitem. rewrite has_column_restrict by assumption.
  destruct (has_column name r).
  - apply restrict_map_set.
  - rewrite restrict_app. simpl.
    apply mem_In in H. now rewrite H.
Qed.

End FrameFacts.

(** ** The feature encoder *)

Module EncoderFacts.
Import Frame Encoder FrameFacts.

Lemma labels_set_indicator col r : labels (set_indicator col r) = labels r.
Proof.
  unfold set_indicator. destruct (has_column col r) eqn:E; [|reflexivity].
  rewrite labels_setitem. now rewrite E.
Qed.

Lemma cell_set_indicator k col r :
  cell k (set_indicator col r)
  = if String.eqb k col && has_column col r then 1 else cell k r.
Proof.
  unfold set_indicator. destruct (has_column col r).
  - rewrite cell_setitem. now rewrite andb_true_r.
  - now rewrite andb_false_r.
Qed.

Lemma restrict_set_indicator_out keys col r :
  ~ In col keys -> restrict keys (set_indicator col r) = restrict keys r.
Proof.
  intros H. unfold set_indicator. destruct (has_column col r); [|reflexivity].
  now apply restrict_setitem_out.
Qed.

Lemma restrict_set_indicator_in keys col r :
  In col keys -> restrict keys (set_indicator col r) = set_indicator col (restrict keys r).
Proof.
  intros H. unfold set_indicator. rewrite has_column_restrict by assumption.
  destruct (has_column col r); [|reflexivity].
  now apply restrict_setitem_in.
Qed.

(** Each statement of the encoder acts on what the final selection sees. *)
Lemma setitem_cong keys name v r r' :
  restrict keys r = restrict keys r' ->
  restrict keys (setitem name v r) = restrict keys (setitem name v r').
Proof.
  intros H. destruct (in_dec string_dec name keys) as [Hin|Hout].
  - rewrite !restrict_setitem_in by assumption. now rewrite H.
  - now rewrite !restrict_setitem_out by assumption.
Qed.

Lemma set_indicator_cong keys col r r' :
  restrict keys r = restrict keys r' ->
  restrict keys (set_indicator col r) = restrict keys (set_indicator col r').
Proof.
  intros H. destruct (in_dec string_dec col keys) as [Hin|Hout].
  - rewrite !restrict_set_indicator_in by assumption. now rewrite H.
  - now rewrite !restrict_set_indicator_out by assumption.
Qed.

Ltac frame_cong :=
  repeat first
    [ reflexivity
    | apply set_indicator_cong
    | apply setitem_cong
    | rewrite restrict_set_indicator_out by assumption
    | rewrite restrict_setitem_out by assumption ].

Lemma same_selection keys r r' :
  restrict keys r = restrict keys r' -> getitem_list keys r = getitem_list keys r'.
Proof.
  intros H. rewrite (getitem_list_restrict keys r), (getitem_list_restrict keys r').
  now rewrite H.
Qed.

Lemma labels_input_row_incl cols sel : incl cols (labels (input_row cols sel)).
Proof.
  unfold input_row, set_location, set_flavor, set_weather, set_social, set_holiday.
  rewrite !labels_set_indicator.
  eapply incl_tran; [|apply labels_setitem_incl].
  eapply incl_tran; [|apply labels_setitem_incl].
  rewrite labels_zeros. apply incl_refl.
Qed.

(** The final selection never raises [KeyError]. *)
Lemma encode_total cols sel : exists row, encode cols sel = inr row.
Proof.
  unfold encode, getitem_list.
  rewrite first_missing_none by apply labels_input_row_incl.
  eexists. reflexivity.
Qed.

Lemma labels_input_row_present cols sel :
  In "holiday" cols -> In "social_media_mentions" cols ->
  labels (input_row cols sel) = cols.
Proof.
  intros Hh Hs.
  unfold input_row, set_location, set_flavor, set_weather, set_social, set_holiday.
  rewrite !labels_set_indicator, !labels_setitem, labels_zeros.
  assert (E1 : has_column "holiday" (zeros cols) = true)
    by (apply has_column_In; now rewrite labels_zeros).
  rewrite E1.
  assert (E2 : has_column "social_media_mentions"
                 (setitem "holiday" (Z.b2z (is_holiday sel)) (zeros cols)) = true).
  { apply has_column_In. rewrite labels_setitem, E1. now rewrite labels_zeros. }
  now rewrite E2.
Qed.

Lemma has_indicator_input col r cols :
  String.eqb col "holiday" = false ->
  String.eqb col "social_media_mentions" = false ->
  incl cols (labels r) ->
  incl (labels r) (cols ++ ["holiday"; "social_media_mentions"]) ->
  has_column col r = existsb (String.eqb col) cols.
Proof.
  intros N1 N2 H1 H2.
  destruct (existsb (String.eqb col) cols) eqn:E.
  - apply has_column_In, H1. now apply mem_In.
  - apply has_column_false. intros Hin. apply H2, in_app_or in Hin.
    destruct Hin as [Hin|Hin].
    + apply mem_In in Hin. congruence.
    + simpl in Hin. destruct Hin as [Hin|[Hin|[]]]; subst col.
      * rewrite String.eqb_refl in N1. discriminate.
      * rewrite String.eqb_refl in N2. discriminate.
Qed.

Lemma labels_numeric_bounds cols sel :
  let r := set_social sel (set_holiday sel (zeros cols)) in
  incl cols (labels r) /\ incl (labels r) (cols ++ ["holiday"; "social_media_mentions"]).
Proof.
  unfold set_social, set_holiday. split.
  - eapply incl_tran; [|apply labels_setitem_incl].
    eapply incl_tran; [|apply labels_setitem_incl].
    rewrite labels_zeros. apply incl_refl.
  - rewrite !labels_setitem, labels_zeros.
    repeat match goal with |- context [if ?b then _ else _] => destruct b end;
      intros x Hx; rewrite ?in_app_iff in *; simpl in *; tauto.
Qed.

Lemma cell_input_row cols sel name :
  cell name (input_row cols sel) = expected sel cols name.
Proof.
  unfold input_row, set_location, set_flavor, set_weather, expected.
  destruct (labels_numeric_bounds cols sel) as [B1 B2].
  set (r := set_social sel (set_holiday sel (zeros cols))) in *.
  rewrite !cell_set_indicator.
  assert (Hw : has_column (weather_col sel) r = existsb (String.eqb (weather_col sel)) cols)
    by (apply has_indicator_input; auto).
  assert (Hf : has_column (flavor_col sel) (set_indicator (weather_col sel) r)
               = existsb (String.eqb (flavor_col sel)) cols).
  { apply has_indicator_input; auto; now rewrite labels_set_indicator. }
  assert (Hl : has_column (location_col sel)
                 (set_indicator (flavor_col sel) (set_indicator (weather_col sel) r))
               = existsb (String.eqb (location_col sel)) cols).
  { apply has_indicator_input; auto; now rewrite !labels_set_indicator. }
  rewrite Hw, Hf, Hl.
  subst r. unfold set_social, set_holiday. rewrite !cell_setitem, cell_zeros.
  reflexivity.
Qed.

End EncoderFacts.

Module EncoderSpec.
Import Frame Encoder FrameFacts EncoderFacts.

(** With distinct labels the encoder returns the schema's columns in the
    schema's order, each with the cell [expected] describes. *)
Lemma encode_distinct cols sel :
  NoDup cols -> In "holiday" cols -> In "social_media_mentions" cols ->
  encode cols sel = inr (map (fun k => (k, expected sel cols k)) cols).
Proof.
  intros Hnd Hh Hs. unfold encode.
  rewrite getitem_list_unique.
  - f_equal. apply map_ext. intros k. now rewrite cell_input_row.
  - now rewrite labels_input_row_present.
  - apply labels_input_row_incl.
Qed.

Lemma weather_col_not_numeric sel :
  String.eqb (weather_col sel) "holiday" = false
  /\ String.eqb (weather_col sel) "social_media_mentions" = false
  /\ String.eqb (weather_col sel) (flavor_col sel) = false
  /\ String.eqb (weather_col sel) (location_col sel) = false.
Proof. repeat split; reflexivity. Qed.

Lemma indicator_cols_apart sel name :
  (String.eqb name (weather_col sel) = true -> String.eqb name (flavor_col sel) = false
      /\ String.eqb name (location_col sel) = false
      /\ String.eqb name "holiday" = false
      /\ String.eqb name "social_media_mentions" = false)
  /\ (String.eqb name (flavor_col sel) = true -> String.eqb name (location_col sel) = false
      /\ String.eqb name "holiday" = false
      /\ String.eqb name "social_media_mentions" = false)
  /\ (String.eqb name (location_col sel) = true -> String.eqb name "holiday" = false
      /\ String.eqb name "social_media_mentions" = false).
Proof.
  split; [|split]; intros E; apply String.eqb_eq in E; subst name;
    repeat split; reflexivity.
Qed.

(** C1. For a schema of distinct labels that contains every derived column
    name of the selection, the encoder succeeds, the returned frame carries
    exactly the schema's labels in the schema's order, and the cell at each
    position is 1 under the matched weather, flavor and location
    indicators, [int(is_holiday)] under ['holiday'], the mention count
    under ['social_media_mentions'], and 0 under every other label. *)
Theorem encode_present_in_schema_order (cols : list string) (sel : Selection) :
  NoDup cols ->
  In (weather_col sel) cols -> In (flavor_col sel) cols -> In (location_col sel) cols ->
  In "holiday" cols -> In "social_media_mentions" cols ->
  exists row,
    encode cols sel = inr row
    /\ labels row = cols
    /\ length (values row) = length cols
    /\ forall i name, nth_error cols i = Some name ->
         exists v, nth_error (values row) i = Some v
           /\ (name = weather_col sel \/ name = flavor_col sel \/ name = location_col sel
               -> v = 1)
           /\ (name = "holiday" -> v = Z.b2z (is_holiday sel))
           /\ (name = "social_media_mentions" -> v = social_mentions sel)
           /\ (name <> weather_col sel -> name <> flavor_col sel ->
               name <> location_col sel -> name <> "holiday" ->
               name <> "social_media_mentions" -> v = 0).
Proof.
  intros Hnd Hw Hf Hl Hh Hs.
  exists (map (fun k => (k, expected sel cols k)) cols).
  split; [now apply encode_distinct|].
  split; [unfold labels; rewrite map_map; simpl; apply map_id|].
  split; [unfold values; now rewrite !length_map|].
  intros i name Hi. exists (expected sel cols name).
  split.
  { unfold values. rewrite map_map. simpl.
    now rewrite nth_error_map, Hi. }
  apply mem_In in Hw, Hf, Hl.
  unfold expected. rewrite Hw, Hf, Hl, !andb_true_r.
  destruct (indicator_cols_apart sel name) as (Aw & Af & Al).
  repeat split.
  - intros [E|[E|E]]; subst name.
    + destruct (weather_col_not_numeric sel) as (_ & _ & E1 & E2).
      now rewrite E1, E2, String.eqb_refl.
    + destruct (String.eqb (flavor_col sel) (location_col sel));
        [reflexivity | now rewrite String.eqb_refl].
    + now rewrite String.eqb_refl.
  - intros E. subst name. reflexivity.
  - intros E. subst name. reflexivity.
  - intros N1 N2 N3 N4 N5.
    apply String.eqb_neq in N1, N2, N3, N4, N5.
    now rewrite N1, N2, N3, N4, N5.
Qed.

Lemma encode_present_in_schema_order_witness :
  exists row,
    encode EncoderExamples.schema EncoderExamples.sel = inr row
    /\ labels row = EncoderExamples.schema
    /\ values row = [1; 42; 0; 1; 1; 0; 0; 1].
Proof.
  destruct (encode_present_in_schema_order EncoderExamples.schema EncoderExamples.sel)
    as (row & E & L & _).
  - repeat constructor; simpl; intuition discriminate.
  - simpl; tauto.
  - simpl; tauto.
  - simpl; tauto.
  - simpl; tauto.
  - simpl; tauto.
  - exists row. split; [exact E|]. split; [exact L|].
    vm_compute in E. injection E as <-. reflexivity.
Defined.

(** C2. When the schema has no ['holiday'] column the encoder succeeds and
    returns what it returns with the holiday assignment left out; the same
    holds for ['social_media_mentions'] and its assignment. *)
Theorem absent_numeric_column_is_ignored (cols : list string) (sel : Selection) :
  (~ In "holiday" cols ->
     (exists row, encode cols sel = inr row)
     /\ encode cols sel
        = getitem_list cols
            (set_location sel (set_flavor sel (set_weather sel
               (set_social sel (zeros cols))))))
  /\ (~ In "social_media_mentions" cols ->
     (exists row, encode cols sel = inr row)
     /\ encode cols sel
        = getitem_list cols
            (set_location sel (set_flavor sel (set_weather sel
               (set_holiday sel (zeros cols)))))).
Proof.
  split; intros H; (split; [apply encode_total|]);
    unfold encode, input_row, set_location, set_flavor, set_weather,
      set_social, set_holiday;
    apply same_selection; frame_cong.
Qed.

Lemma absent_numeric_column_is_ignored_witness :
  encode ["weather_Rainy"; "flavor_Mint"] EncoderExamples.sel
    = inr [("weather_Rainy", 1); ("flavor_Mint", 0)]
  /\ encode ["holiday"; "weather_Rainy"] EncoderExamples.sel
    = inr [("holiday", 1); ("weather_Rainy", 1)].
Proof.
  split.
  - destruct (absent_numeric_column_is_ignored ["weather_Rainy"; "flavor_Mint"]
                EncoderExamples.sel) as [Hh _].
    destruct Hh as [_ E].
    + simpl. intuition discriminate.
    + rewrite E. reflexivity.
  - destruct (absent_numeric_column_is_ignored ["holiday"; "weather_Rainy"]
                EncoderExamples.sel) as [_ Hs].
    destruct Hs as [_ E].
    + simpl. intuition discriminate.
    + rewrite E. reflexivity.
Defined.

(** C7. Encoding always succeeds, and when the derived name of the weather
    (of the flavor, of the location) is not a label of the schema, the
    returned frame is the one obtained with that assignment left out. *)
Theorem absent_indicator_is_ignored (cols : list string) (sel : Selection) :
  (exists row, encode cols sel = inr row)
  /\ (~ In (weather_col sel) cols ->
      encode cols sel
      = getitem_list cols
          (set_location sel (set_flavor sel
             (set_social sel (set_holiday sel (zeros cols))))))
  /\ (~ In (flavor_col sel) cols ->
      encode cols sel
      = getitem_list cols
          (set_location sel (set_weather sel
             (set_social sel (set_holiday sel (zeros cols))))))
  /\ (~ In (location_col sel) cols ->
      encode cols sel
      = getitem_list cols
          (set_flavor sel (set_weather sel
             (set_social sel (set_holiday sel (zeros cols)))))).
Proof.
  split; [apply encode_total|].
  repeat split; intros H;
    unfold encode, input_row, set_location, set_flavor, set_weather;
    apply same_selection; frame_cong.
Qed.

Lemma absent_indicator_is_ignored_witness :
  encode ["holiday"; "flavor_Oreo"; "location_Texas"] EncoderExamples.sel
    = inr [("holiday", 1); ("flavor_Oreo", 1); ("location_Texas", 1)]
  /\ encode ["holiday"; "weather_Rainy"; "location_Texas"] EncoderExamples.sel
    = inr [("holiday", 1); ("weather_Rainy", 1); ("location_Texas", 1)]
  /\ encode ["holiday"; "weather_Rainy"; "flavor_Oreo"] EncoderExamples.sel
    = inr [("holiday", 1); ("weather_Rainy", 1); ("flavor_Oreo", 1)].
Proof.
  split; [|split].
  - destruct (absent_indicator_is_ignored ["holiday"; "flavor_Oreo"; "location_Texas"]
                EncoderExamples.sel) as (_ & E & _ & _).
    rewrite E; [reflexivity | simpl; intuition discriminate].
  - destruct (absent_indicator_is_ignored ["holiday"; "weather_Rainy"; "location_Texas"]
                EncoderExamples.sel) as (_ & _ & E & _).
    rewrite E; [reflexivity | simpl; intuition discriminate].
  - destruct (absent_indicator_is_ignored ["holiday"; "weather_Rainy"; "flavor_Oreo"]
                EncoderExamples.sel) as (_ & _ & _ & E).
    rewrite E; [reflexivity | simpl; intuition discriminate].
Defined.

(** A schema without the two numeric columns: both are appended by the
    assignments and dropped again by the final selection. *)
Example encode_without_numeric :
  input_row ["weather_Rainy"; "flavor_Mint"] EncoderExamples.sel
    = [("weather_Rainy", 1); ("flavor_Mint", 0); ("holiday", 1);
       ("social_media_mentions", 42)]
  /\ encode ["weather_Rainy"; "flavor_Mint"] EncoderExamples.sel
    = inr [("weather_Rainy", 1); ("flavor_Mint", 0)].
Proof. split; reflexivity. Qed.

(** Why the labels of a schema must be distinct: a label listed twice is
    selected twice per occurrence, as pandas does. *)
Example encode_repeated_label :
  encode ["holiday"; "holiday"] EncoderExamples.sel
  = inr [("holiday", 1); ("holiday", 1); ("holiday", 1); ("holiday", 1)].
Proof. reflexivity. Qed.

End EncoderSpec.

(** ** Binary64 arithmetic: results that are computed exactly *)

Module FloatFacts.
Import Float64.

(** *** Number of binary digits *)

Lemma digits_bounds (m : positive) :
  2 ^ (Zpos (digits2_pos m) - 1) <= Zpos m < 2 ^ Zpos (digits2_pos m).
Proof.
  induction m as [m IH|m IH|]; simpl digits2_pos.
  - rewrite Pos2Z.inj_succ.
    replace (Z.succ (Zpos (digits2_pos m)) - 1) with (Z.succ (Zpos (digits2_pos m) - 1)) by lia.
    rewrite !Z.pow_succ_r by lia. lia.
  - rewrite Pos2Z.inj_succ.
    replace (Z.succ (Zpos (digits2_pos m)) - 1) with (Z.succ (Zpos (digits2_pos m) - 1)) by lia.
    rewrite !Z.pow_succ_r by lia. lia.
  - simpl. lia.
Qed.

Lemma digits_unique (m : positive) (d : Z) :
  2 ^ (d - 1) <= Zpos m < 2 ^ d -> Zpos (digits2_pos m) = d.
Proof.
  intros [H1 H2]. pose proof (digits_bounds m) as [B1 B2].
  assert (Hd : 0 < d).
  { destruct (Z.ltb_spec 0 d) as [|Hle]; [assumption|].
    assert (2 ^ d <= 2 ^ 0) by (apply Z.pow_le_mono_r; lia).
    simpl in *. lia. }
  destruct (Z.lt_trichotomy (Zpos (digits2_pos m)) d) as [Hlt|[E|Hgt]]; [|assumption|].
  - assert (2 ^ Zpos (digits2_pos m) <= 2 ^ (d - 1)) by (apply Z.pow_le_mono_r; lia). lia.
  - assert (2 ^ d <= 2 ^ (Zpos (digits2_pos m) - 1)) by (apply Z.pow_le_mono_r; lia). lia.
Qed.

Lemma digits_shift (m mx : positive) (k : Z) :
  0 <= k -> Zpos mx = Zpos m * 2 ^ k ->
  Zpos (digits2_pos mx) = Zpos (digits2_pos m) + k.
Proof.
  intros Hk E. apply digits_unique. rewrite E.
  pose proof (digits_bounds m) as [B1 B2].
  replace (Zpos (digits2_pos m) + k - 1) with ((Zpos (digits2_pos m) - 1) + k) by lia.
  rewrite !Z.pow_add_r by lia.
  assert (0 < 2 ^ k) by (apply Z.pow_pos_nonneg; lia).
  split; [apply Z.mul_le_mono_nonneg_r | apply Z.mul_lt_mono_pos_r]; lia.
Qed.

(** *** Shifts of the rounding functions *)

Lemma iter_xO (m d : positive) : Zpos (Pos.iter xO m d) = Zpos m * 2 ^ Zpos d.
Proof.
  induction d as [|d IH] using Pos.peano_ind.
  - simpl. lia.
  - rewrite Pos.iter_succ, Pos2Z.inj_succ, Z.pow_succ_r by lia.
    rewrite Pos2Z.inj_xO, IH. ring.
Qed.

Lemma iter_pos_iter {A : Type} (f : A -> A) (n : positive) (x : A) :
  iter_pos f n x = Pos.iter f x n.
Proof.
  revert x. induction n as [n IH|n IH|]; intros x; simpl.
  - rewrite !IH. now rewrite <- !Pos.iter_swap.
  - now rewrite !IH.
  - reflexivity.
Qed.

Lemma shr_exact (m mx n : positive) :
  Zpos mx = Zpos m * 2 ^ Zpos n ->
  iter_pos shr_1 n {| shr_m := Zpos mx; shr_r := false; shr_s := false |}
  = {| shr_m := Zpos m; shr_r := false; shr_s := false |}.
Proof.
  rewrite iter_pos_iter. revert m.
  induction n as [|n IH] using Pos.peano_ind; intros m E.
  - simpl in *. destruct mx as [mx|mx|]; try lia.
    simpl. f_equal. lia.
  - rewrite Pos.iter_succ.
    rewrite Pos2Z.inj_succ, Z.pow_succ_r in E by lia.
    rewrite (IH (xO m)).
    + reflexivity.
    + rewrite Pos2Z.inj_xO. lia.
Qed.

(** *** Canonical representations *)

Lemma fexp_eq (e : Z) : fexp prec emax e = Z.max (e - 53) (-1074).
Proof. reflexivity. Qed.

Lemma bounded_inv (m : positive) (e : Z) :
  bounded prec emax m e = true ->
  Z.max (Zpos (digits2_pos m) + e - 53) (-1074) = e /\ e <= 971.
Proof.
  unfold bounded, canonical_mantissa. rewrite andb_true_iff, fexp_eq.
  intros [H1 H2]. apply Z.eqb_eq in H1. apply Z.leb_le in H2.
  change (emax - prec) with 971 in H2. split; assumption.
Qed.

Lemma bounded_intro (m : positive) (e : Z) :
  Z.max (Zpos (digits2_pos m) + e - 53) (-1074) = e -> e <= 971 ->
  bounded prec emax m e = true.
Proof.
  intros H1 H2. unfold bounded, canonical_mantissa. rewrite andb_true_iff, fexp_eq.
  split; [now apply Z.eqb_eq | now apply Z.leb_le].
Qed.

(** Rounding a canonical mantissa shifted left by [k] bits gives it back. *)
Lemma round_aux_exact (s : bool) (m mx : positive) (e k : Z) :
  bounded prec emax m e = true -> 0 <= k -> Zpos mx = Zpos m * 2 ^ k ->
  binary_round_aux prec emax s (Zpos mx) (e - k) loc_Exact = S754_finite s m e.
Proof.
  intros Hb Hk E. pose proof (bounded_inv m e Hb) as [Hc He].
  pose proof (digits_shift m mx k Hk E) as Hd.
  unfold binary_round_aux, shr_fexp. simpl Zdigits2. rewrite !fexp_eq.
  simpl shr_record_of_loc.
  replace (Z.max (Zpos (digits2_pos mx) + (e - k) - 53) (-1074) - (e - k)) with k by lia.
  assert (S : shr {| shr_m := Zpos mx; shr_r := false; shr_s := false |} (e - k) k
              = ({| shr_m := Zpos m; shr_r := false; shr_s := false |}, e)).
  { unfold shr. destruct k as [|k|k]; [| |lia].
    - f_equal; [|lia]. f_equal. rewrite Z.pow_0_r in E. lia.
    - f_equal; [|lia]. now apply shr_exact. }
  rewrite S. simpl loc_of_shr_record. simpl round_nearest_even. simpl Zdigits2.
  rewrite fexp_eq.
  replace (Z.max (Zpos (digits2_pos m) + e - 53) (-1074) - e) with 0 by lia.
  simpl. change (emax - prec) with 971.
  destruct (Z.leb_spec e 971); [reflexivity | lia].
Qed.

(** Rounding a number that a canonical float represents returns that
    float, whatever the exponent it is presented at. *)
Lemma round_exact (s : bool) (mx m : positive) (ex e : Z) :
  bounded prec emax m e = true ->
  -1074 <= ex ->
  Zpos mx * 2 ^ (ex + 1074) = Zpos m * 2 ^ (e + 1074) ->
  binary_round prec emax s mx ex = S754_finite s m e.
Proof.
  intros Hb Hex E. pose proof (bounded_inv m e Hb) as [Hc He].
  assert (Hemin : -1074 <= e) by lia.
  unfold binary_round.
  destruct (Z.le_gt_cases ex e) as [Hle|Hgt].
  - (* the mantissa is too long: shifted right by the rounding *)
    assert (E' : Zpos mx = Zpos m * 2 ^ (e - ex)).
    { replace (e + 1074) with ((e - ex) + (ex + 1074)) in E by lia.
      rewrite (Z.pow_add_r 2 (e - ex)) in E by lia.
      assert (0 < 2 ^ (ex + 1074)) by (apply Z.pow_pos_nonneg; lia).
      nia. }
    pose proof (digits_shift m mx (e - ex) ltac:(lia) E') as Hd.
    rewrite fexp_eq.
    replace (Z.max (Zpos (digits2_pos mx) + ex - 53) (-1074)) with e by lia.
    unfold shl_align. destruct (e - ex) as [|d|d] eqn:Ed; try lia.
    + replace ex with (e - 0) at 1 by lia. apply round_aux_exact; [assumption|lia|].
      rewrite E'. reflexivity.
    + replace ex with (e - Zpos d) at 1 by lia. apply round_aux_exact; [assumption|lia|].
      exact E'.
  - (* the mantissa is too short: shifted left before rounding *)
    assert (E' : Zpos m = Zpos mx * 2 ^ (ex - e)).
    { replace (ex + 1074) with ((ex - e) + (e + 1074)) in E by lia.
      rewrite (Z.pow_add_r 2 (ex - e)) in E by lia.
      assert (0 < 2 ^ (e + 1074)) by (apply Z.pow_pos_nonneg; lia).
      nia. }
    pose proof (digits_shift mx m (ex - e) ltac:(lia) E') as Hd.
    rewrite fexp_eq.
    replace (Z.max (Zpos (digits2_pos mx) + ex - 53) (-1074)) with e by lia.
    unfold shl_align. destruct (e - ex) as [|d|d] eqn:Ed; try lia.
    assert (Em : Pos.iter xO mx d = m).
    { apply Pos2Z.inj. rewrite iter_xO, E'. f_equal. f_equal. lia. }
    rewrite Em. replace e with (e - 0) at 1 by lia.
    apply round_aux_exact; [assumption|lia|]. rewrite Z.pow_0_r. lia.
Qed.

(** *** Values, in units of 2^-1074 *)

Lemma pow2_pos (k : Z) : 0 <= k -> 0 < 2 ^ k.
Proof. intros H. apply Z.pow_pos_nonneg; lia. Qed.

Lemma valid_emin (s : bool) (m : positive) (e : Z) :
  valid (S754_finite s m e) = true -> -1074 <= e <= 971 /\ Zpos m < 2 ^ 53.
Proof.
  intros H. apply bounded_inv in H. destruct H as [H1 H2].
  split; [lia|].
  pose proof (digits_bounds m) as [_ B].
  eapply Z.lt_le_trans; [exact B|].
  apply Z.pow_le_mono_r; lia.
Qed.

Lemma normalize_exact (n ex : Z) (s : bool) (m : positive) (e : Z) (szero : bool) :
  bounded prec emax m e = true -> -1074 <= ex ->
  n * 2 ^ (ex + 1074) = sval (S754_finite s m e) ->
  binary_normalize prec emax n ex szero = S754_finite s m e.
Proof.
  intros Hb Hex E. pose proof (bounded_inv m e Hb) as [Hc He].
  assert (0 < 2 ^ (ex + 1074)) by (apply pow2_pos; lia).
  assert (0 < 2 ^ (e + 1074)) by (apply pow2_pos; lia).
  assert (0 < Zpos m * 2 ^ (e + 1074)) by (apply Z.mul_pos_pos; lia).
  unfold sval in E. unfold binary_normalize.
  destruct n as [|n|n]; destruct s; unfold cond_Zopp in E.
  - lia.
  - lia.
  - assert (0 < Zpos n * 2 ^ (ex + 1074)) by (apply Z.mul_pos_pos; lia). lia.
  - apply round_exact; [assumption|lia|]. lia.
  - apply round_exact; [assumption|lia|].
    rewrite <- Pos2Z.opp_pos in E. lia.
  - assert (0 < Zpos n * 2 ^ (ex + 1074)) by (apply Z.mul_pos_pos; lia).
    rewrite <- Pos2Z.opp_pos in E. lia.
Qed.

(** A number of at most 53 bits at an exponent a binary64 can hold is
    normalised without rounding. *)
Lemma normalize_small (n ex : Z) (szero : bool) :
  n <> 0 -> Z.abs n < 2 ^ 53 -> -1074 <= ex <= 971 ->
  exists m e,
    binary_normalize prec emax n ex szero = S754_finite (n <? 0) m e
    /\ bounded prec emax m e = true
    /\ Zpos m * 2 ^ (e + 1074) = Z.abs n * 2 ^ (ex + 1074).
Proof.
  intros Hn Hlt Hex.
  destruct (Z.abs n) as [|mx|mx] eqn:Ea; try lia.
  set (e := Z.max (Zpos (digits2_pos mx) + ex - 53) (-1074)).
  assert (Hd : Zpos (digits2_pos mx) <= 53).
  { pose proof (digits_bounds mx) as [B _].
    destruct (Z.le_gt_cases (Zpos (digits2_pos mx)) 53) as [|G]; [assumption|].
    assert (2 ^ 53 <= 2 ^ (Zpos (digits2_pos mx) - 1)) by (apply Z.pow_le_mono_r; lia).
    lia. }
  assert (He : e <= ex) by (unfold e; lia).
  assert (Hp : 0 < Zpos mx * 2 ^ (ex - e)).
  { apply Z.mul_pos_pos; [lia | apply pow2_pos; lia]. }
  destruct (Zpos mx * 2 ^ (ex - e)) as [|m|m] eqn:Em; try lia.
  assert (Hb : bounded prec emax m e = true).
  { apply bounded_intro; [|lia].
    rewrite (digits_shift mx m (ex - e)) by (lia || now rewrite Em).
    unfold e. lia. }
  assert (Ev : Zpos m * 2 ^ (e + 1074) = Zpos mx * 2 ^ (ex + 1074)).
  { rewrite <- Em, <- Z.mul_assoc, <- Z.pow_add_r by lia. do 2 f_equal. lia. }
  exists m, e. split; [|split; assumption].
  apply normalize_exact; [assumption|lia|].
  unfold sval. rewrite Ev, <- Ea.
  destruct (Z.ltb_spec n 0); unfold cond_Zopp; lia.
Qed.

Lemma shl_align_fst (mx : positive) (ex ez : Z) :
  ez <= ex -> Zpos (fst (shl_align mx ex ez)) = Zpos mx * 2 ^ (ex - ez).
Proof.
  intros H. unfold shl_align. destruct (ez - ex) as [|d|d] eqn:E; cbn [fst].
  - replace (ex - ez) with 0 by lia. rewrite Z.pow_0_r. lia.
  - lia.
  - rewrite iter_xO. do 2 f_equal. lia.
Qed.

Lemma aligned_value (s : bool) (mx : positive) (ex ez : Z) :
  -1074 <= ez -> ez <= ex ->
  cond_Zopp s (Zpos (fst (shl_align mx ex ez))) * 2 ^ (ez + 1074)
  = sval (S754_finite s mx ex).
Proof.
  intros H1 H2. rewrite shl_align_fst by assumption. unfold sval.
  replace (ex + 1074) with ((ex - ez) + (ez + 1074)) by lia.
  rewrite (Z.pow_add_r 2 (ex - ez)) by lia. destruct s; unfold cond_Zopp; ring.
Qed.

(** A difference that a binary64 represents is computed exactly. *)
Lemma sub_exact (sx sy s : bool) (mx my m : positive) (ex ey e : Z) :
  -1074 <= ex -> -1074 <= ey ->
  bounded prec emax m e = true ->
  sval (S754_finite s m e) = sval (S754_finite sx mx ex) - sval (S754_finite sy my ey) ->
  sub (S754_finite sx mx ex) (S754_finite sy my ey) = S754_finite s m e.
Proof.
  intros Hx Hy Hb E. unfold sub, SFsub.
  apply normalize_exact; [assumption|lia|].
  rewrite Z.mul_sub_distr_r, !aligned_value by lia. now rewrite E.
Qed.

Lemma sub_cancel (sx sy : bool) (mx my : positive) (ex ey : Z) :
  -1074 <= ex -> -1074 <= ey ->
  sval (S754_finite sx mx ex) = sval (S754_finite sy my ey) ->
  sub (S754_finite sx mx ex) (S754_finite sy my ey) = S754_zero false.
Proof.
  intros Hx Hy E. unfold sub, SFsub.
  set (ez := Z.min ex ey).
  assert (D : (cond_Zopp sx (Zpos (fst (shl_align mx ex ez)))
               - cond_Zopp sy (Zpos (fst (shl_align my ey ez)))) * 2 ^ (ez + 1074) = 0).
  { rewrite Z.mul_sub_distr_r, !aligned_value by (unfold ez; lia). lia. }
  assert (0 < 2 ^ (ez + 1074)) by (apply pow2_pos; unfold ez; lia).
  apply Z.mul_eq_0_l in D; [|lia].
  unfold Z.sub in D |- *. rewrite D. reflexivity.
Qed.

Lemma new_location_zero (n : Z) : new_location n 0 = loc_Exact.
Proof.
  unfold new_location, new_location_even, new_location_odd.
  destruct (Z.even n); reflexivity.
Qed.

Lemma div_core_exact (mx my mz : positive) (ex ey ez : Z) :
  -1074 <= ex -> -1074 <= ey ->
  bounded prec emax mz ez = true ->
  Zpos mx * 2 ^ (ex + 2148) = Zpos mz * Zpos my * 2 ^ (ez + ey + 2148) ->
  exists mq e',
    SFdiv_core_binary prec emax (Zpos mx) ex (Zpos my) ey = (Zpos mq, e', loc_Exact)
    /\ e' <= ez /\ Zpos mq = Zpos mz * 2 ^ (ez - e').
Proof.
  intros Hx Hy Hb E. pose proof (bounded_inv mz ez Hb) as [Hc He].
  unfold SFdiv_core_binary. simpl Zdigits2. rewrite fexp_eq.
  set (d1 := Zpos (digits2_pos mx)). set (d2 := Zpos (digits2_pos my)).
  set (e' := Z.min (Z.max (d1 + ex - (d2 + ey) - 53) (-1074)) (ex - ey)).
  pose proof (digits_bounds mx) as [Bx _]. fold d1 in Bx.
  pose proof (digits_bounds my) as [_ By]. fold d2 in By.
  pose proof (digits_bounds mz) as [_ Bz].
  set (dz := Zpos (digits2_pos mz)) in *.
  assert (Hd1 : 0 < d1) by (unfold d1; lia).
  assert (Hmag : d1 + ex <= dz + d2 + ez + ey).
  { assert (L : 2 ^ (d1 - 1 + (ex + 2148)) < 2 ^ (dz + d2 + (ez + ey + 2148))).
    { rewrite (Z.pow_add_r 2 (d1 - 1)) by lia.
      rewrite (Z.pow_add_r 2 (dz + d2)) by (unfold dz, d2; lia).
      rewrite (Z.pow_add_r 2 dz) by (unfold dz, d2; lia).
      assert (0 < 2 ^ (ex + 2148)) by (apply pow2_pos; lia).
      assert (0 < 2 ^ (ez + ey + 2148)) by (apply pow2_pos; lia).
      apply Z.le_lt_trans with (Zpos mx * 2 ^ (ex + 2148)).
      - apply Z.mul_le_mono_nonneg_r; lia.
      - rewrite E. apply Zmult_lt_compat_r; [assumption|].
        apply Z.mul_lt_mono_nonneg; lia. }
    apply Z.pow_lt_mono_r_iff in L; unfold dz, d2 in *; lia. }
  assert (He' : e' <= ez) by (unfold e', dz in *; lia).
  assert (Hs : 0 <= ex - ey - e') by (unfold e'; lia).
  assert (Hlow : 0 <= e' + ey + 2148) by (unfold e'; lia).
  set (m' := match ex - ey - e' with
             | 0 => Zpos mx
             | Zpos _ => Z.shiftl (Zpos mx) (ex - ey - e')
             | Zneg _ => 0
             end).
  assert (Em' : m' = Zpos mx * 2 ^ (ex - ey - e')).
  { unfold m'. destruct (ex - ey - e') as [|p|p] eqn:Es.
    - rewrite Z.pow_0_r. lia.
    - apply Z.shiftl_mul_pow2. lia.
    - lia. }
  assert (Eq : m' = Zpos mz * 2 ^ (ez - e') * Zpos my).
  { rewrite Em'.
    assert (P : 0 < 2 ^ (e' + ey + 2148)) by (apply pow2_pos; lia).
    assert (HA : 2 ^ (ex + 2148) = 2 ^ (ex - ey - e') * 2 ^ (e' + ey + 2148)).
    { rewrite <- Z.pow_add_r by lia. f_equal. lia. }
    assert (HB : 2 ^ (ez + ey + 2148) = 2 ^ (ez - e') * 2 ^ (e' + ey + 2148)).
    { rewrite <- Z.pow_add_r by lia. f_equal. lia. }
    rewrite HA, HB in E.
    apply Z.mul_reg_r with (2 ^ (e' + ey + 2148)); [lia|].
    rewrite <- Z.mul_assoc, E. ring. }
  assert (Hq : 0 < Zpos mz * 2 ^ (ez - e')).
  { apply Z.mul_pos_pos; [lia | apply pow2_pos; lia]. }
  destruct (Zpos mz * 2 ^ (ez - e')) as [|mq|mq] eqn:Emq; try lia.
  exists mq, e'. split; [|split; [assumption | now rewrite <- Emq]].
  fold m'.
  assert (Hdiv : Z.div_eucl m' (Zpos my) = (Zpos mq, 0)).
  { pose proof (Z.div_eucl_eq m' (Zpos my) ltac:(lia)) as D.
    assert (Dq : m' / Zpos my = Zpos mq) by (rewrite Eq; apply Z.div_mul; lia).
    assert (Dr : m' mod Zpos my = 0) by (rewrite Eq; apply Z.mod_mul; lia).
    unfold Z.div in Dq. unfold Z.modulo in Dr.
    destruct (Z.div_eucl m' (Zpos my)) as [q r]. simpl in *. now subst. }
  rewrite Hdiv. now rewrite new_location_zero.
Qed.

(** A quotient that a binary64 represents is computed exactly. *)
Lemma div_exact (sx sy : bool) (mx my mz : positive) (ex ey ez : Z) :
  -1074 <= ex -> -1074 <= ey ->
  bounded prec emax mz ez = true ->
  Zpos mx * 2 ^ (ex + 2148) = Zpos mz * Zpos my * 2 ^ (ez + ey + 2148) ->
  div (S754_finite sx mx ex) (S754_finite sy my ey) = S754_finite (xorb sx sy) mz ez.
Proof.
  intros Hx Hy Hb E.
  destruct (div_core_exact mx my mz ex ey ez Hx Hy Hb E) as (mq & e' & C & Hle & Eq).
  unfold div, SFdiv. rewrite C.
  replace e' with (ez - (ez - e')) by lia.
  apply round_aux_exact; [assumption|lia|assumption].
Qed.

(** *** Integer-valued floats *)

Lemma int_repr_exists (n : Z) :
  0 < n < 2 ^ 53 -> exists m e, int_repr n m e.
Proof.
  intros H.
  destruct (normalize_small n 0 false) as (m & e & _ & Hb & E); try lia.
  exists m, e. split; [assumption|]. rewrite E. f_equal. lia.
Qed.

Lemma of_Z_int_repr (n : Z) (s : bool) (m : positive) (e : Z) :
  0 < n -> int_repr n m e -> of_Z (cond_Zopp s n) = S754_finite s m e.
Proof.
  intros Hn [Hb E]. unfold of_Z. apply normalize_exact; [assumption|lia|].
  unfold sval. rewrite E. destruct s; unfold cond_Zopp; simpl (0 + 1074); ring.
Qed.

Lemma int_repr_pos (n : Z) (m : positive) (e : Z) : int_repr n m e -> 0 < n.
Proof.
  intros [Hb E]. pose proof (bounded_inv m e Hb) as [Hc He].
  assert (0 < Zpos m * 2 ^ (e + 1074)) by (apply Z.mul_pos_pos; [lia | apply pow2_pos; lia]).
  assert (0 < 2 ^ 1074) by (apply pow2_pos; lia).
  nia.
Qed.

Lemma to_int_int_repr (n : Z) (s : bool) (m : positive) (e : Z) :
  int_repr n m e -> to_int (S754_finite s m e) = inr (cond_Zopp s n).
Proof.
  intros H. pose proof (int_repr_pos n m e H) as Hn. destruct H as [Hb E].
  pose proof (bounded_inv m e Hb) as [Hc He].
  assert (P : 0 < 2 ^ 1074) by (apply pow2_pos; lia).
  unfold to_int. do 2 f_equal.
  destruct (Z.leb_spec 0 e) as [Hle|Hlt].
  - rewrite Z.pow_add_r in E by lia.
    apply Z.mul_reg_r with (2 ^ 1074); [lia|]. rewrite <- E. ring.
  - assert (Q : 0 < 2 ^ (- e)) by (apply pow2_pos; lia).
    assert (E' : Zpos m = n * 2 ^ (- e)).
    { apply Z.mul_reg_r with (2 ^ (e + 1074)); [apply Z.neq_sym, Z.lt_neq, pow2_pos; lia|].
      rewrite E, <- Z.mul_assoc, <- Z.pow_add_r by lia. do 2 f_equal. lia. }
    rewrite E'. apply Z.div_mul. lia.
Qed.

Lemma floor_int_repr (n : Z) (s : bool) (m : positive) (e : Z) :
  int_repr n m e -> floor (S754_finite s m e) = S754_finite s m e.
Proof.
  intros H. pose proof (int_repr_pos n m e H) as Hn.
  pose proof (of_Z_int_repr n s m e Hn H) as Hof. destruct H as [Hb E].
  pose proof (bounded_inv m e Hb) as [Hc He].
  unfold floor. destruct (Z.leb_spec 0 e) as [Hle|Hlt]; [reflexivity|].
  assert (Q : 0 < 2 ^ (- e)) by (apply pow2_pos; lia).
  assert (E' : Zpos m = n * 2 ^ (- e)).
  { apply Z.mul_reg_r with (2 ^ (e + 1074)); [apply Z.neq_sym, Z.lt_neq, pow2_pos; lia|].
    rewrite E, <- Z.mul_assoc, <- Z.pow_add_r by lia. do 2 f_equal. lia. }
  assert (D : cond_Zopp s (Zpos m) / 2 ^ (- e) = cond_Zopp s n).
  { rewrite E'. destruct s; unfold cond_Zopp.
    - rewrite <- Z.mul_opp_l. apply Z.div_mul. lia.
    - apply Z.div_mul. lia. }
  rewrite D.
  destruct (Z.eqb_spec (cond_Zopp s n) 0) as [Z0|_].
  - destruct s; unfold cond_Zopp in Z0; lia.
  - exact Hof.
Qed.

(** *** The remainder *)

Lemma fmod_finite (sx sy : bool) (mx my : positive) (ex ey : Z) :
  valid (S754_finite sx mx ex) = true -> valid (S754_finite sy my ey) = true ->
  let r := (Zpos mx * 2 ^ (ex + 1074)) mod (Zpos my * 2 ^ (ey + 1074)) in
  (r = 0 /\ fmod (S754_finite sx mx ex) (S754_finite sy my ey) = S754_zero sx)
  \/ (r <> 0 /\ exists mr er,
        fmod (S754_finite sx mx ex) (S754_finite sy my ey) = S754_finite sx mr er
        /\ bounded prec emax mr er = true
        /\ Zpos mr * 2 ^ (er + 1074) = r).
Proof.
  intros Vx Vy r.
  apply valid_emin in Vx, Vy. destruct Vx as [Hex Hmx], Vy as [Hey Hmy].
  unfold fmod. set (e := Z.min ex ey).
  set (R := (Zpos mx * 2 ^ (ex - e)) mod (Zpos my * 2 ^ (ey - e))).
  assert (Pe : 0 < 2 ^ (e + 1074)) by (apply pow2_pos; unfold e; lia).
  assert (Px : 0 < 2 ^ (ex - e)) by (apply pow2_pos; unfold e; lia).
  assert (Py : 0 < 2 ^ (ey - e)) by (apply pow2_pos; unfold e; lia).
  assert (ER : r = R * 2 ^ (e + 1074)).
  { unfold r, R.
    assert (HX : 2 ^ (ex + 1074) = 2 ^ (ex - e) * 2 ^ (e + 1074)).
    { rewrite <- Z.pow_add_r by (unfold e; lia). f_equal. lia. }
    assert (HY : 2 ^ (ey + 1074) = 2 ^ (ey - e) * 2 ^ (e + 1074)).
    { rewrite <- Z.pow_add_r by (unfold e; lia). f_equal. lia. }
    rewrite HX, HY, !Z.mul_assoc. apply Z.mul_mod_distr_r; lia. }
  assert (BR : 0 <= R < 2 ^ 53).
  { pose proof (Z.mod_pos_bound (Zpos mx * 2 ^ (ex - e)) (Zpos my * 2 ^ (ey - e))
                  ltac:(lia)) as B.
    fold R in B. split; [lia|].
    destruct (Z.le_ge_cases ex ey) as [L|L].
    - assert (R <= Zpos mx * 2 ^ (ex - e)) by (apply Z.mod_le; lia).
      replace (ex - e) with 0 in * by (unfold e; lia). rewrite Z.pow_0_r in *. lia.
    - replace (ey - e) with 0 in * by (unfold e; lia). rewrite Z.pow_0_r in *. lia. }
  destruct (Z.eqb_spec R 0) as [Z0|NZ].
  - left. split; [rewrite ER, Z0; lia | reflexivity].
  - right. split; [rewrite ER; nia|].
    destruct (normalize_small (cond_Zopp sx R) e false) as (mr & er & N & Hb & E).
    + destruct sx; unfold cond_Zopp; lia.
    + destruct sx; unfold cond_Zopp; lia.
    + unfold e; lia.
    + exists mr, er. split; [|split; [assumption|]].
      * rewrite N. f_equal. destruct sx; unfold cond_Zopp.
        -- apply Z.ltb_lt. lia.
        -- apply Z.ltb_ge. lia.
      * rewrite E, ER. f_equal. destruct sx; unfold cond_Zopp; lia.
Qed.

(** *** Floor division by a positive integer *)

Lemma pow2_split (a b : Z) : 0 <= a -> 0 <= b -> 2 ^ (a + b) = 2 ^ a * 2 ^ b.
Proof. intros. now apply Z.pow_add_r. Qed.

(** The quotient is already integral: snapping leaves it alone. *)
Lemma snap_int (n : Z) (s : bool) (m : positive) (e : Z) :
  int_repr n m e ->
  (if ltb half (sub (S754_finite s m e) (floor (S754_finite s m e)))
   then add (floor (S754_finite s m e)) (of_Z 1)
   else floor (S754_finite s m e)) = S754_finite s m e.
Proof.
  intros H. pose proof (floor_int_repr n s m e H) as F.
  destruct H as [Hb E]. pose proof (bounded_inv m e Hb) as [Hc He].
  rewrite F. rewrite sub_cancel by (reflexivity || lia).
  reflexivity.
Qed.

Lemma one_repr : of_Z 1 = S754_finite false 4503599627370496 (-52).
Proof. reflexivity. Qed.

Lemma one_int_repr : int_repr 1 4503599627370496 (-52).
Proof. split; reflexivity. Qed.

Lemma one_value : 4503599627370496 * 2 ^ (-52 + 1074) = 2 ^ 1074.
Proof. reflexivity. Qed.

Section Divisor.
Variable d : Z.
Variable mb : positive.
Variable eb : Z.
Hypothesis Hd : 0 < d < 2 ^ 53.
Hypothesis Hb : int_repr d mb eb.

Let b : float := S754_finite false mb eb.

Lemma div_int_multiple (s : bool) (mx mq : positive) (ex eq q : Z) :
  -1074 <= ex -> int_repr q mq eq ->
  Zpos mx * 2 ^ (ex + 1074) = d * q * 2 ^ 1074 ->
  div (S754_finite s mx ex) b = S754_finite s mq eq.
Proof.
  intros Hex [Hq Eq] E. destruct Hb as [Hbb Eb].
  pose proof (bounded_inv mq eq Hq) as [Hcq Heq].
  pose proof (bounded_inv mb eb Hbb) as [Hcb Heb].
  unfold b. rewrite <- (xorb_false_r s) at 2.
  apply div_exact; [lia|lia|assumption|].
  replace (ex + 2148) with ((ex + 1074) + 1074) by lia.
  replace (eq + eb + 2148) with ((eq + 1074) + (eb + 1074)) by lia.
  rewrite (pow2_split (ex + 1074) 1074), (pow2_split (eq + 1074) (eb + 1074)) by lia.
  rewrite Z.mul_assoc, E.
  transitivity ((Zpos mq * 2 ^ (eq + 1074)) * (Zpos mb * 2 ^ (eb + 1074))); [|ring].
  rewrite Eq, Eb. ring.
Qed.

Lemma floor_divide_small (s : bool) (m : positive) (e : Z) :
  2 <= d ->
  valid (S754_finite s m e) = true ->
  Zpos m * 2 ^ (e + 1074) < 2 ^ 53 * 2 ^ 1074 ->
  to_int (floor_divide (S754_finite s m e) b)
  = inr (cond_Zopp s (Zpos m * 2 ^ (e + 1074)) / (d * 2 ^ 1074)).
Proof.
  intros Hd2 V Hlt.
  pose proof (valid_emin s m e V) as [Hex Hm].
  pose proof Hb as [Hbb Eb]. pose proof (bounded_inv mb eb Hbb) as [Hcb Heb].
  assert (P1074 : 0 < 2 ^ 1074) by (apply pow2_pos; lia).
  assert (HP : 0 < Zpos m * 2 ^ (e + 1074))
    by (apply Z.mul_pos_pos; [lia | apply pow2_pos; lia]).
  assert (HB : 0 < d * 2 ^ 1074) by (apply Z.mul_pos_pos; lia).
  destruct (fmod_finite s false m mb e eb V Hbb) as [[R0 F]|[RN (mr & er & F & Hbr & Er)]];
    rewrite Eb in *.
  all: set (P := Zpos m * 2 ^ (e + 1074)) in *.
  all: set (B := d * 2 ^ 1074) in *.
  all: pose proof (Z.div_mod P B ltac:(lia)) as DM.
  all: pose proof (Z.mod_pos_bound P B HB) as MB.
  all: assert (Hq0 : 0 <= P / B) by (apply Z.div_pos; lia).
  all: assert (Hq52 : 2 * (P / B) < 2 ^ 53)
         by (assert (P / B < 2 ^ 52); [apply Z.div_lt_upper_bound; unfold B; nia | lia]).
  all: unfold floor_divide, npy_divmod, b; cbv zeta; rewrite !F.
  all: change (nonzero (S754_finite false mb eb)) with true;
       change (negb true) with false; cbv iota.
  - (* the prediction is a multiple of the divisor *)
    change (nonzero (S754_zero s)) with false. cbv iota.
    change (sub (S754_finite s m e) (S754_zero s)) with (S754_finite s m e).
    assert (Hq : 0 < P / B < 2 ^ 53) by nia.
    destruct (int_repr_exists (P / B) Hq) as (mq & eq & Rq).
    fold b. rewrite (div_int_multiple s m mq e eq (P / B)); [|lia|assumption|unfold B in *; nia].
    change (nonzero (S754_finite s mq eq)) with true. cbv iota.
    rewrite (snap_int (P / B) s mq eq Rq).
    rewrite (to_int_int_repr (P / B) s mq eq Rq). f_equal.
    destruct s; unfold cond_Zopp; [|reflexivity].
    rewrite Z.div_opp_l_z; lia.
  - (* a remainder is left *)
    pose proof (bounded_inv mr er Hbr) as [Hcr Her].
    change (nonzero (S754_finite s mr er)) with true. cbv iota.
    change (ltb (S754_finite false mb eb) (S754_zero false)) with false.
    destruct (Z.eq_dec (P / B) 0) as [Q0|QN].
    + (* the prediction is smaller than the divisor *)
      rewrite (sub_cancel s s m mr e er); [|lia|lia|].
      2:{ unfold sval. rewrite Er. fold P. f_equal. lia. }
      change (div (S754_zero false) (S754_finite false mb eb)) with (S754_zero false).
      destruct s.
      * change (ltb (S754_finite true mr er) (S754_zero false)) with true.
        change (negb (Bool.eqb false true)) with true. cbv iota.
        change (sub (S754_zero false) (of_Z 1))
          with (S754_finite true 4503599627370496 (-52)).
        change (nonzero (S754_finite true 4503599627370496 (-52))) with true. cbv iota.
        rewrite (snap_int 1 true _ _ one_int_repr).
        rewrite (to_int_int_repr 1 true _ _ one_int_repr). f_equal.
        unfold cond_Zopp. rewrite Z.div_opp_l_nz by lia. lia.
      * change (ltb (S754_finite false mr er) (S754_zero false)) with false.
        change (negb (Bool.eqb false false)) with false. cbv iota.
        change (nonzero (S754_zero false)) with false. cbv iota.
        unfold copysign_zero, to_int, cond_Zopp. now rewrite Q0.
    + (* the prediction is at least the divisor *)
      assert (Hdq : 0 < d * (P / B) < 2 ^ 53) by (unfold B in *; nia).
      destruct (int_repr_exists (d * (P / B)) Hdq) as (m1 & e1 & R1).
      pose proof R1 as [Hb1 E1]. pose proof (bounded_inv m1 e1 Hb1) as [Hc1 He1].
      rewrite (sub_exact s s s m mr m1 e er e1); [|lia|lia|assumption|].
      2:{ unfold sval. rewrite Er, E1. fold P.
          destruct s; unfold cond_Zopp; unfold B in *; lia. }
      assert (Hq : 0 < P / B < 2 ^ 53) by lia.
      destruct (int_repr_exists (P / B) Hq) as (mq & eq & Rq).
      pose proof Rq as [Hbq Eq]. pose proof (bounded_inv mq eq Hbq) as [Hcq Heq].
      fold b.
      rewrite (div_int_multiple s m1 mq e1 eq (P / B)); [|lia|assumption|exact E1].
      destruct s.
      * change (ltb (S754_finite true mr er) (S754_zero false)) with true.
        change (negb (Bool.eqb false true)) with true. cbv iota.
        assert (Hq1 : 0 < P / B + 1 < 2 ^ 53) by lia.
        destruct (int_repr_exists (P / B + 1) Hq1) as (mq' & eq' & Rq').
        pose proof Rq' as [Hbq' Eq'].
        rewrite one_repr.
        rewrite (sub_exact true false true mq 4503599627370496 mq' eq (-52) eq');
          [|lia|lia|assumption|].
        2:{ unfold sval, cond_Zopp. rewrite Eq', Eq, one_value. ring. }
        change (nonzero (S754_finite true mq' eq')) with true. cbv iota.
        rewrite <- one_repr.
        rewrite (snap_int (P / B + 1) true mq' eq' Rq').
        rewrite (to_int_int_repr (P / B + 1) true mq' eq' Rq'). f_equal.
        unfold cond_Zopp. rewrite Z.div_opp_l_nz by lia. lia.
      * change (ltb (S754_finite false mr er) (S754_zero false)) with false.
        change (negb (Bool.eqb false false)) with false. cbv iota.
        change (nonzero (S754_finite false mq eq)) with true. cbv iota.
        rewrite (snap_int (P / B) false mq eq Rq).
        rewrite (to_int_int_repr (P / B) false mq eq Rq). reflexivity.
Qed.

End Divisor.

(** *** Predictions below 2^53 *)

Lemma below_2_53 (s : bool) (m : positive) (e : Z) :
  valid (S754_finite s m e) = true ->
  ltb (SFabs (S754_finite s m e)) (of_Z (2 ^ 53)) = true ->
  Zpos m * 2 ^ (e + 1074) < 2 ^ 53 * 2 ^ 1074.
Proof.
  intros V L. pose proof (valid_emin s m e V) as [He Hm].
  apply bounded_inv in V. destruct V as [Hc _].
  change (of_Z (2 ^ 53)) with (S754_finite false 4503599627370496 1) in L.
  unfold ltb, SFltb, SFabs, SFcompare in L.
  destruct (Z.compare_spec e 1) as [E1|Hlt|Hgt]; [| |discriminate L].
  - exfalso. subst e.
    assert (D : Zpos (digits2_pos m) = 53) by lia.
    pose proof (digits_bounds m) as [B _].
    rewrite D in B. change (2 ^ (53 - 1)) with 4503599627370496 in B.
    rewrite Pos.compare_cont_spec in L.
    destruct (Pos.compare_spec m 4503599627370496) as [C|C|C];
      [discriminate L | | discriminate L].
    apply Pos2Z.pos_lt_pos in C. lia.
  - assert (0 < 2 ^ (e + 1074)) by (apply pow2_pos; lia).
    assert (2 ^ (e + 1074) <= 2 ^ 1074) by (apply Z.pow_le_mono_r; lia).
    apply Z.lt_le_trans with (2 ^ 53 * 2 ^ (e + 1074)).
    + apply Zmult_lt_compat_r; assumption.
    + apply Z.mul_le_mono_nonneg_l; [apply Z.pow_nonneg; lia | assumption].
Qed.

Lemma exact_floor_quot_scaled (s : bool) (m : positive) (e d : Z) :
  -1074 <= e -> 0 < d ->
  exact_floor_quot (S754_finite s m e) d
  = cond_Zopp s (Zpos m * 2 ^ (e + 1074)) / (d * 2 ^ 1074).
Proof.
  intros He Hd. unfold exact_floor_quot.
  assert (P : 0 < 2 ^ 1074) by (apply pow2_pos; lia).
  destruct (Z.leb_spec 0 e) as [Hle|Hlt].
  - rewrite (pow2_split e 1074) by lia.
    replace (cond_Zopp s (Zpos m * (2 ^ e * 2 ^ 1074)))
      with (cond_Zopp s (Zpos m) * 2 ^ e * 2 ^ 1074)
      by (destruct s; unfold cond_Zopp; ring).
    rewrite Z.div_mul_cancel_r by lia. reflexivity.
  - assert (Q : 0 < 2 ^ (e + 1074)) by (apply pow2_pos; lia).
    replace (2 ^ 1074) with (2 ^ (- e) * 2 ^ (e + 1074))
      by (rewrite <- pow2_split by lia; f_equal; lia).
    replace (cond_Zopp s (Zpos m * 2 ^ (e + 1074)))
      with (cond_Zopp s (Zpos m) * 2 ^ (e + 1074))
      by (destruct s; unfold cond_Zopp; ring).
    rewrite Z.mul_assoc.
    rewrite Z.div_mul_cancel_r; [reflexivity| |lia].
    assert (0 < 2 ^ (- e)) by (apply pow2_pos; lia). lia.
Qed.

(** For every binary64 [p] with [|p| < 2^53] and every integer divisor [d]
    with [2 <= d < 2^53], [int(p // d)] is the floor of the exact
    quotient. *)
Lemma floor_divide_exact (p : float) (d : Z) :
  2 <= d < 2 ^ 53 ->
  valid p = true ->
  ltb (abs p) (of_Z (2 ^ 53)) = true ->
  to_int (floor_divide p (of_Z d)) = inr (exact_floor_quot p d).
Proof.
  intros Hd V L.
  destruct (int_repr_exists d ltac:(lia)) as (mb & eb & Rb).
  replace (of_Z d) with (S754_finite false mb eb)
    by (symmetry; apply (of_Z_int_repr d false mb eb); [lia | assumption]).
  destruct p as [s|s| |s m e]; [|discriminate L|discriminate L|].
  - destruct s; reflexivity.
  - pose proof (valid_emin s m e V) as [He _].
    rewrite exact_floor_quot_scaled by lia.
    apply floor_divide_small; try assumption; try lia.
    now apply (below_2_53 s).
Qed.

End FloatFacts.

(** ** The recommendation arithmetic *)

Module RecommendSpec.
Import Float64 Recommend FloatFacts.

Lemma batches_exact (p : float) :
  valid p = true -> ltb (abs p) (of_Z (2 ^ 53)) = true ->
  batches p = inr (exact_floor_quot p 12).
Proof.
  intros V L. unfold batches. apply floor_divide_exact; [|assumption|assumption].
  split; [lia | reflexivity].
Qed.

Lemma staff_estimate_exact (p : float) :
  valid p = true -> ltb (abs p) (of_Z (2 ^ 53)) = true ->
  staff_estimate p = inr (exact_floor_quot p 150).
Proof.
  intros V L. unfold staff_estimate. apply floor_divide_exact; [|assumption|assumption].
  split; [lia | reflexivity].
Qed.

(** Division by a zero average, whatever the prediction. *)
Lemma change_pct_zero_average (p : float) (s : bool) :
  change_pct p (S754_zero s)
  = match p with
    | S754_nan | S754_zero _ => S754_nan
    | S754_infinity sp | S754_finite sp _ _ => S754_infinity (xorb sp s)
    end.
Proof.
  unfold change_pct. destruct p as [sp|sp| |sp m e]; try reflexivity.
  - destruct sp, s; reflexivity.
  - destruct sp, s; reflexivity.
Qed.

(** The three branches of lines 224-240. *)
Lemma action_bundle_cases (p pct : float) (b st : Z) :
  batches p = inr b -> staff_estimate p = inr st ->
  action_bundle p pct
  = inr (if ltb (of_Z 15) pct then Surge b st
         else if ltb pct (of_Z (-10)) then Slump else Steady).
Proof.
  intros Hb Hs. unfold action_bundle. rewrite Hb, Hs.
  destruct (ltb (of_Z 15) pct); [reflexivity|].
  destruct (ltb pct (of_Z (-10))); reflexivity.
Qed.

Lemma evaluate_below_2_53 (p a : float) :
  valid p = true -> ltb (abs p) (of_Z (2 ^ 53)) = true ->
  evaluate p a
  = inr {| rec_change_pct := change_pct p a;
           rec_batches := exact_floor_quot p 12;
           rec_action :=
             if ltb (of_Z 15) (change_pct p a)
             then Surge (exact_floor_quot p 12) (exact_floor_quot p 150)
             else if ltb (change_pct p a) (of_Z (-10)) then Slump else Steady |}.
Proof.
  intros V L. unfold evaluate.
  rewrite (batches_exact p V L).
  rewrite (action_bundle_cases p _ _ _ (batches_exact p V L) (staff_estimate_exact p V L)).
  reflexivity.
Qed.

(** C3, as the code behaves.  With a historical average of zero the
    division raises nothing: [change_pct] is an infinity with the sign of
    the prediction (against the sign of the zero) when the prediction is
    not zero, and a NaN when it is zero or a NaN.  For a prediction below
    2^53 in magnitude a recommendation is produced: Surge for plus
    infinity, Slump for minus infinity, Steady for a NaN. *)
Theorem zero_average_raises_nothing (p : float) (s : bool) :
  valid p = true -> ltb (abs p) (of_Z (2 ^ 53)) = true ->
  change_pct p (S754_zero s)
    = match p with
      | S754_nan | S754_zero _ => S754_nan
      | S754_infinity sp | S754_finite sp _ _ => S754_infinity (xorb sp s)
      end
  /\ evaluate p (S754_zero s)
    = inr {| rec_change_pct := change_pct p (S754_zero s);
             rec_batches := exact_floor_quot p 12;
             rec_action :=
               match p with
               | S754_finite sp _ _ =>
                   if xorb sp s then Slump
                   else Surge (exact_floor_quot p 12) (exact_floor_quot p 150)
               | _ => Steady
               end |}.
Proof.
  intros V L. split; [apply change_pct_zero_average|].
  rewrite (evaluate_below_2_53 p _ V L). rewrite change_pct_zero_average.
  destruct p as [sp|sp| |sp m e]; try discriminate L.
  - reflexivity.
  - destruct (xorb sp s); reflexivity.
Qed.

Lemma zero_average_raises_nothing_witness :
  evaluate (of_Z 180) (of_Z 0)
  = inr {| rec_change_pct := S754_infinity false;
           rec_batches := 15;
           rec_action := Surge 15 1 |}.
Proof.
  destruct (zero_average_raises_nothing (of_Z 180) false) as [_ E];
    [reflexivity | reflexivity | exact E].
Defined.

(** C3 as stated fails: with prediction 180 and average 0 no error is
    raised and the Surge recommendation is produced. *)
Lemma zero_average_counterexample :
  evaluate (of_Z 180) (of_Z 0)
    = inr {| rec_change_pct := S754_infinity false;
             rec_batches := 15;
             rec_action := Surge 15 1 |}
  /\ ~ (exists e, evaluate (of_Z 180) (of_Z 0) = inl e).
Proof.
  assert (H : evaluate (of_Z 180) (of_Z 0)
              = inr {| rec_change_pct := S754_infinity false;
                       rec_batches := 15;
                       rec_action := Surge 15 1 |}) by (vm_compute; reflexivity).
  split; [exact H|]. intros [e E]. rewrite H in E. discriminate E.
Qed.

Lemma twenty_less_one_ulp_value :
  of_Z 20 = S754_finite false 5629499534213120 (-48)
  /\ ltb twenty_less_one_ulp (of_Z 20) = true
  /\ sub (of_Z 20) twenty_less_one_ulp = S754_finite false 4503599627370496 (-100).
Proof. vm_compute. repeat split. Qed.

(** C4, as the code behaves.  For every prediction whose two integer
    conversions [int(p // 12)] and [int(p // 150)] succeed (they do for
    every prediction below 2^53 in magnitude, see [evaluate_below_2_53])
    and every historical average, the action is chosen by the first
    matching threshold: Surge exactly when [change_pct > 15]; otherwise
    Slump exactly when [change_pct < -10]; otherwise Steady.
    [evaluate(180, 150)] gives [change_pct = 20 - 2^-48]
    (19.999999999999996, one unit in the last place below 20.0) and Surge;
    [evaluate(100, 150)] gives Slump; [evaluate(150, 150)] gives
    [change_pct = 0.0] and Steady. *)
Theorem action_by_first_matching_threshold (p a : float) (b st : Z) :
  batches p = inr b -> staff_estimate p = inr st ->
  (exists act,
     evaluate p a = inr {| rec_change_pct := change_pct p a;
                           rec_batches := b;
                           rec_action := act |}
     /\ (act = Surge b st <-> ltb (of_Z 15) (change_pct p a) = true)
     /\ (act = Slump
          <-> ltb (of_Z 15) (change_pct p a) = false
              /\ ltb (change_pct p a) (of_Z (-10)) = true)
     /\ (act = Steady
          <-> ltb (of_Z 15) (change_pct p a) = false
              /\ ltb (change_pct p a) (of_Z (-10)) = false))
  /\ evaluate (of_Z 180) (of_Z 150)
      = inr {| rec_change_pct := twenty_less_one_ulp;
               rec_batches := 15;
               rec_action := Surge 15 1 |}
  /\ (exists pct n,
        evaluate (of_Z 100) (of_Z 150)
        = inr {| rec_change_pct := pct; rec_batches := n; rec_action := Slump |}
        /\ ltb pct (of_Z (-33)) = true /\ ltb (of_Z (-34)) pct = true)
  /\ evaluate (of_Z 150) (of_Z 150)
      = inr {| rec_change_pct := S754_zero false;
               rec_batches := 12;
               rec_action := Steady |}.
Proof.
  intros Hb Hs. split; [|split; [|split]].
  - eexists. split.
    + unfold evaluate. rewrite Hb.
      rewrite (action_bundle_cases p _ b st Hb Hs). reflexivity.
    + destruct (ltb (of_Z 15) (change_pct p a));
        [|destruct (ltb (change_pct p a) (of_Z (-10)))];
        repeat split; intros; try discriminate; try tauto;
        match goal with H : _ /\ _ |- _ => destruct H; discriminate end.
  - vm_compute. reflexivity.
  - exists (S754_finite true 4691249611844267 (-47)), 8.
    vm_compute. repeat split.
  - vm_compute. reflexivity.
Qed.

Lemma action_by_first_matching_threshold_witness :
  evaluate (of_Z 200) (of_Z 150)
  = inr {| rec_change_pct := change_pct (of_Z 200) (of_Z 150);
           rec_batches := 16;
           rec_action := Surge 16 1 |}.
Proof.
  destruct (action_by_first_matching_threshold (of_Z 200) (of_Z 150) 16 1)
    as [(act & E & HS & _) _]; [vm_compute; reflexivity | vm_compute; reflexivity |].
  assert (A : act = Surge 16 1) by (apply HS; vm_compute; reflexivity).
  rewrite E, A. reflexivity.
Defined.

(** C4 as stated fails at its first example: the percentage computed for
    [evaluate(180, 150)] is not 20.0 but the float just below it.  It also
    fails for a prediction that is not finite: the percentage is above 15
    and no action is chosen, the conversion to a batch count raises. *)
Lemma change_pct_180_150_counterexample :
  (exists r, evaluate (of_Z 180) (of_Z 150) = inr r
     /\ rec_change_pct r <> of_Z 20
     /\ eqb (rec_change_pct r) (of_Z 20) = false
     /\ rec_action r = Surge 15 1)
  /\ ltb (of_Z 15) (change_pct (S754_infinity false) (of_Z 150)) = true
  /\ evaluate (S754_infinity false) (of_Z 150) = inl ValueError.
Proof.
  split; [|split; vm_compute; reflexivity].
  eexists. split; [vm_compute; reflexivity|].
  split; [|split].
  - cbn [rec_change_pct]. vm_compute. discriminate.
  - vm_compute. reflexivity.
  - reflexivity.
Qed.

(** C5, as the code behaves.  For every prediction [p] below 2^53 in
    magnitude and every historical average [a], [change_pct] is
    [(p / a - 1) * 100] in binary64 arithmetic, [batches] is the floor of
    the exact quotient [p / 12] and [staff_estimate] the floor of the exact
    quotient [p / 150]. *)
Theorem derived_quantities_below_2_53 (p a : float) :
  valid p = true -> ltb (abs p) (of_Z (2 ^ 53)) = true ->
  change_pct p a = mul (sub (div p a) (of_Z 1)) (of_Z 100)
  /\ batches p = inr (exact_floor_quot p 12)
  /\ staff_estimate p = inr (exact_floor_quot p 150).
Proof.
  intros V L. split; [reflexivity|].
  split; [now apply batches_exact | now apply staff_estimate_exact].
Qed.

Lemma derived_quantities_below_2_53_witness :
  batches (of_Z 180) = inr 15 /\ staff_estimate (of_Z 180) = inr 1.
Proof.
  destruct (derived_quantities_below_2_53 (of_Z 180) (of_Z 150))
    as (_ & B & S); [reflexivity | reflexivity |].
  split; [exact B | exact S].
Defined.

(** C5 as stated fails for large predictions: 2^55 + 8 is a binary64
    number, the floor of its quotient by 12 is 3002399751580331, and the
    code computes 3002399751580330. *)
Lemma batches_large_counterexample :
  of_Z (2 ^ 55 + 8) = S754_finite false 4503599627370497 3
  /\ to_int (of_Z (2 ^ 55 + 8)) = inr (2 ^ 55 + 8)
  /\ exact_floor_quot (of_Z (2 ^ 55 + 8)) 12 = 3002399751580331
  /\ batches (of_Z (2 ^ 55 + 8)) = inr 3002399751580330
  /\ batches (of_Z (2 ^ 55 + 8)) <> inr (exact_floor_quot (of_Z (2 ^ 55 + 8)) 12).
Proof.
  assert (B : batches (of_Z (2 ^ 55 + 8)) = inr 3002399751580330)
    by (vm_compute; reflexivity).
  assert (F : exact_floor_quot (of_Z (2 ^ 55 + 8)) 12 = 3002399751580331)
    by (vm_compute; reflexivity).
  repeat split; try (vm_compute; reflexivity).
  rewrite B, F. discriminate.
Qed.

(** A prediction that is not finite has no batch count: the conversion to
    an integer raises. *)
Example batches_not_finite :
  batches (S754_infinity false) = inl ValueError
  /\ batches S754_nan = inl ValueError
  /\ evaluate (S754_infinity false) (of_Z 150) = inl ValueError.
Proof. vm_compute. repeat split. Qed.

End RecommendSpec.

(** ** Loading *)

Module LoaderSpec.
Import Dataset Loader.

Lemma dataset_has_column_In name d : has_column name d = true <-> In name (column_labels d).
Proof.
  unfold has_column. rewrite existsb_exists. split.
  - intros (x & Hx & E). apply String.eqb_eq in E. now subst.
  - intros H. exists name. split; [assumption | apply String.eqb_refl].
Qed.

Lemma labels_rename old new d :
  column_labels (rename old new d)
  = map (fun l => if String.eqb l old then new else l) (column_labels d).
Proof.
  unfold column_labels, rename. simpl. rewrite !map_map. reflexivity.
Qed.

(** After the renaming no column is called ['sales'] any more, and one is
    called ['units_sold']. *)
Lemma rename_sales d :
  has_column "sales" d = true ->
  has_column "sales" (rename "sales" "units_sold" d) = false
  /\ has_column "units_sold" (rename "sales" "units_sold" d) = true.
Proof.
  intros H. split.
  - destruct (has_column "sales" (rename "sales" "units_sold" d)) eqn:E; [|reflexivity].
    apply dataset_has_column_In in E. rewrite labels_rename in E.
    apply in_map_iff in E. destruct E as (l & E & _).
    destruct (String.eqb l "sales") eqn:F; [discriminate E|].
    subst l. discriminate F.
  - apply dataset_has_column_In. rewrite labels_rename. apply in_map_iff.
    exists "sales"%string. split; [reflexivity | now apply dataset_has_column_In].
Qed.

Lemma has_column_set_column name vals d :
  has_column name (set_column name vals d) = true.
Proof.
  apply dataset_has_column_In. unfold column_labels, set_column. simpl.
  destruct (has_column name d) eqn:E.
  - apply dataset_has_column_In in E. unfold column_labels in E.
    rewrite map_map. apply in_map_iff in E. destruct E as ([l c] & E & Hin).
    simpl in E. subst l. apply in_map_iff. exists (name, c).
    simpl. now rewrite String.eqb_refl.
  - rewrite map_app. apply in_or_app. right. now left.
Qed.

Lemma lcg_randint_spec (low high : Z) (size : nat) (g : Z) :
  low < high ->
  length (fst (lcg_randint low high size g)) = size
  /\ Forall (fun z => low <= z < high) (fst (lcg_randint low high size g)).
Proof.
  intros H. revert g. induction size as [|n IH]; intros g; simpl.
  - split; [reflexivity | constructor].
  - specialize (IH (lcg_next g)).
    destruct (lcg_randint low high n (lcg_next g)) as [rest g']. simpl in *.
    destruct IH as [IH1 IH2]. split; [now rewrite IH1|].
    constructor; [|assumption].
    pose proof (Z.mod_pos_bound g (high - low) ltac:(lia)). lia.
Qed.

(** C6. Whenever the source can be read, [load_data] returns a dataset:
    a column called ['sales'] has been renamed to ['units_sold']; with
    ['units_sold'] and no ['sales'] the table is returned as read; with
    neither, a column ['units_sold'] is appended whose cells, one per row,
    are integers from 50 up to but not including 200; in every case the
    result has a column ['units_sold'].  [randint] is numpy's, taken with
    its contract. *)
Theorem load_data_units_sold
    (RandomState : Type)
    (randint : Z -> Z -> nat -> RandomState -> list Z * RandomState)
    (randint_spec : forall low high size g,
        low < high ->
        length (fst (randint low high size g)) = size
        /\ Forall (fun z => low <= z < high) (fst (randint low high size g)))
    (d : DataFrame) (g : RandomState) :
  exists d' g',
    load_data RandomState randint (inr d) g = (Some d', g')
    /\ (has_column "sales" d = true ->
         d' = rename "sales" "units_sold" d /\ has_column "sales" d' = false)
    /\ (has_column "sales" d = false -> has_column "units_sold" d = true -> d' = d)
    /\ (has_column "sales" d = false -> has_column "units_sold" d = false ->
         exists draws,
           columns d' = columns d ++ [("units_sold"%string, map Int draws)]
           /\ nrows d' = nrows d
           /\ length draws = nrows d
           /\ Forall (fun z => 50 <= z < 200) draws)
    /\ has_column "units_sold" d' = true.
Proof.
  unfold load_data, normalize.
  destruct (has_column "sales" d) eqn:Hs.
  - destruct (rename_sales d Hs) as [R1 R2].
    eexists. eexists. split; [reflexivity|].
    repeat split; try discriminate; assumption.
  - destruct (has_column "units_sold" d) eqn:Hu; simpl.
    + eexists. eexists. split; [reflexivity|].
      repeat split; try discriminate; assumption.
    + destruct (randint_spec 50 200 (nrows d) g ltac:(lia)) as [L F].
      destruct (randint 50 200 (nrows d) g) as [draws g'] eqn:R. simpl in L, F.
      eexists. eexists. split; [reflexivity|].
      split; [discriminate|]. split; [discriminate|]. split.
      * intros _ _. exists draws. unfold set_column. simpl. rewrite Hu.
        repeat split; assumption.
      * apply has_column_set_column.
Qed.

Lemma load_data_units_sold_witness :
  exists d' g',
    load_data Z lcg_randint
      (inr {| nrows := 2; columns := [("flavor"%string, [Str "Oreo"; Str "Mint"])] |}) 7
    = (Some d', g')
    /\ has_column "units_sold" d' = true.
Proof.
  destruct (load_data_units_sold Z lcg_randint lcg_randint_spec
              {| nrows := 2; columns := [("flavor"%string, [Str "Oreo"; Str "Mint"])] |} 7)
    as (d' & g' & E & _ & _ & _ & U).
  exists d', g'. split; assumption.
Defined.

Example load_data_run :
  load_data Z lcg_randint
    (inr {| nrows := 2; columns := [("flavor"%string, [Str "Oreo"; Str "Mint"])] |}) 7
  = (Some {| nrows := 2;
             columns := [("flavor"%string, [Str "Oreo"; Str "Mint"]);
                         ("units_sold"%string, [Int 57; Int 116])] |},
     642666333).
Proof. vm_compute. reflexivity. Qed.

(** An unreadable source halts the session. *)
Example load_data_unreadable :
  load_data Z lcg_randint (inl FileNotFoundError) 7 = (None, 7).
Proof. reflexivity. Qed.

End LoaderSpec.

(** ** One run of the script *)

Module SessionSpec.
Import Frame Encoder Float64 Recommend Dataset Session EncoderFacts.

Lemma read_only_ret {A : Type} (a : A) : read_only (ret a).
Proof. intros w. repeat split. Qed.

Lemma read_only_lift {A : Type} (r : exn + A) : read_only (lift r).
Proof. intros w. repeat split. Qed.

Lemma read_only_read {A : Type} (f : World -> A) : read_only (read f).
Proof. intros w. repeat split. Qed.

Lemma read_only_show (x : Widget) : read_only (show x).
Proof. intros w. repeat split. Qed.

Lemma read_only_bind {A B : Type} (c : M A) (k : A -> M B) :
  read_only c -> (forall a, read_only (k a)) -> read_only (bind c k).
Proof.
  intros Hc Hk w. unfold bind. specialize (Hc w).
  destruct (c w) as [[e|a] w']; simpl in *; [exact Hc|].
  specialize (Hk a w'). destruct Hk as (K1 & K2 & K3), Hc as (C1 & C2 & C3).
  repeat split; congruence.
Qed.

Lemma read_only_try {A : Type} (body : M A) (handler : exn -> M A) :
  read_only body -> (forall e, read_only (handler e)) -> read_only (try_except body handler).
Proof.
  intros Hb Hh w. unfold try_except. specialize (Hb w).
  destruct (body w) as [[e|a] w']; simpl in *; [|exact Hb].
  specialize (Hh e w'). destruct Hh as (K1 & K2 & K3), Hb as (C1 & C2 & C3).
  repeat split; congruence.
Qed.

Lemma read_only_when (b : bool) (c : M unit) : read_only c -> read_only (when b c).
Proof. intros H. destruct b; [exact H | apply read_only_ret]. Qed.

Ltac read_only_steps :=
  repeat first
    [ apply read_only_ret
    | apply read_only_lift
    | apply read_only_read
    | apply read_only_show
    | apply read_only_when
    | apply read_only_bind; [|intros ?]
    | apply read_only_try; [|intros ?]
    | match goal with
      | |- read_only (match ?x with _ => _ end) => destruct x
      end ].

Lemma read_only_encode_input : read_only encode_input.
Proof. unfold encode_input. read_only_steps. Qed.

Section Run.
Variable predict : Row -> exn + float.
Variable mean : Column -> exn + float.

Lemma read_only_make_prediction : read_only (make_prediction predict).
Proof. unfold make_prediction, encode_input. read_only_steps. Qed.

Lemma read_only_prediction_card x : read_only (prediction_card mean x).
Proof. unfold prediction_card. read_only_steps. Qed.

Lemma read_only_action_card x pct : read_only (action_card x pct).
Proof. unfold action_card. read_only_steps. Qed.

Lemma read_only_charts : read_only (charts mean).
Proof. unfold charts. read_only_steps. Qed.

Lemma read_only_results prediction : read_only (results mean prediction).
Proof.
  unfold results. destruct (truthy prediction); [|apply read_only_ret].
  destruct prediction as [x|]; [|apply read_only_ret].
  apply read_only_bind; [apply read_only_prediction_card|intros pct].
  apply read_only_bind; [apply read_only_action_card|intros _].
  apply read_only_charts.
Qed.

Lemma read_only_generate : read_only (generate predict mean).
Proof.
  unfold generate. apply read_only_bind;
    [apply read_only_make_prediction | intros pr; apply read_only_results].
Qed.
End Run.

(** The encoding step returns the encoder's frame and leaves the state of
    the script as it found it. *)
Lemma encode_input_run (w : World) :
  exists row, encode (feature_columns w) (selection w) = inr row
              /\ encode_input w = (inr row, w).
Proof.
  destruct (encode_total (feature_columns w) (selection w)) as [row E].
  exists row. split; [assumption|].
  unfold encode_input, bind, read, lift. now rewrite E.
Qed.

(** C8. Encoding the same selection against the same schema twice in a
    row gives the same frame both times, and the second encoding starts
    from the very state the first one started from. *)
Theorem encoding_twice_is_identical (w : World) :
  exists row,
    encode_input w = (inr row, w)
    /\ encode_input (snd (encode_input w)) = (inr row, w)
    /\ encode (feature_columns w) (selection w) = inr row.
Proof.
  destruct (encode_input_run w) as (row & E & R).
  exists row. rewrite R. simpl. repeat split; assumption.
Qed.

(** C9. One prediction cycle (encoding and prediction, the prediction
    card with the historical average, the recommendation, the three chart
    aggregations, and the whole of them behind the button) ends with the
    dataset it started with, whatever the model, the mean kernel and the
    state. *)
Theorem dataset_never_mutated
    (predict : Row -> exn + float) (mean : Column -> exn + float) (w : World) :
  df (snd (make_prediction predict w)) = df w
  /\ (forall x, df (snd (prediction_card mean x w)) = df w)
  /\ (forall x pct, df (snd (action_card x pct w)) = df w)
  /\ df (snd (charts mean w)) = df w
  /\ df (snd (generate predict mean w)) = df w.
Proof.
  split; [apply read_only_make_prediction|].
  split; [intros x; apply read_only_prediction_card|].
  split; [intros x pct; apply read_only_action_card|].
  split; [apply read_only_charts | apply read_only_generate].
Qed.

(** C10. A prediction equal to zero is as false as an absent one: the
    block under [if prediction:] shows nothing, and a cycle whose model
    answers zero leaves the page as it was, without any summary, metric,
    recommendation or chart (and without the error box of a failed
    prediction). *)
Theorem zero_prediction_shows_nothing
    (mean : Column -> exn + float) (w : World) (s : bool) :
  truthy (Some (S754_zero s)) = truthy None
  /\ results mean (Some (S754_zero s)) w = (inr tt, w)
  /\ results mean None w = (inr tt, w)
  /\ generate (fun _ => inr (S754_zero s)) mean w = (inr tt, w).
Proof.
  split; [reflexivity|]. split; [reflexivity|]. split; [reflexivity|].
  destruct (encode_input_run w) as (row & E & R).
  unfold generate, make_prediction, try_except, bind at 1 2.
  rewrite R. reflexivity.
Qed.

(** A failed prediction shows the error box and nothing else. *)
Lemma failed_prediction_shows_error
    (mean : Column -> exn + float) (w : World) (e : exn) :
  generate (fun _ => inl e) mean w
  = (inr tt, {| df := df w; feature_columns := feature_columns w;
                selection := selection w; page := page w ++ [ErrorBox e] |}).
Proof.
  destruct (encode_input_run w) as (row & E & R).
  unfold generate, make_prediction, try_except, bind at 1 2.
  rewrite R. reflexivity.
Qed.

Example generate_180 :
  page (snd (generate (SessionExamples.constant_model (of_Z 180))
               SessionExamples.int_mean SessionExamples.world))
  = [ScenarioSummary "Oreo" "Rainy" "Texas" true;
     MetricPredicted (of_Z 180);
     MetricVsAverage twenty_less_one_ulp;
     MetricBatches 15;
     SuccessBox 15 1 "Oreo";
     BoxChart [Str "Rainy"; Str "Sunny"] [Int 140; Int 160];
     BarChart [(Str "Texas", of_Z 140); (Str "Utah", of_Z 160)]].
Proof. vm_compute. reflexivity. Qed.

End SessionSpec.

(** ** More on the feature encoder *)

Module EncoderMore.
Import Frame Encoder FrameFacts EncoderFacts.

Lemma NoDup_snoc (l : list string) (x : string) : NoDup l -> ~ In x l -> NoDup (l ++ [x]).
Proof.
  intros Hl Hx. apply NoDup_app; [assumption | repeat constructor; simpl; tauto |].
  intros a Ha [E|[]]. subst. tauto.
Qed.

Lemma NoDup_labels_setitem (name : string) (v : Z) (r : Row) :
  NoDup (labels r) -> NoDup (labels (setitem name v r)).
Proof.
  intros H. rewrite labels_setitem. destruct (has_column name r) eqn:E; [assumption|].
  apply NoDup_snoc; [assumption | now apply has_column_false].
Qed.

Lemma NoDup_labels_input_row (cols : list string) (sel : Selection) :
  NoDup cols -> NoDup (labels (input_row cols sel)).
Proof.
  intros H. unfold input_row, set_location, set_flavor, set_weather, set_social, set_holiday.
  rewrite !labels_set_indicator. do 2 apply NoDup_labels_setitem.
  now rewrite labels_zeros.
Qed.

(** With distinct labels, whatever the schema contains. *)
Lemma encode_distinct_general (cols : list string) (sel : Selection) :
  NoDup cols -> encode cols sel = inr (map (fun k => (k, expected sel cols k)) cols).
Proof.
  intros H. unfold encode. rewrite getitem_list_unique.
  - f_equal. apply map_ext. intros k. now rewrite cell_input_row.
  - now apply NoDup_labels_input_row.
  - apply labels_input_row_incl.
Qed.

Lemma expected_in_schema (sel : Selection) (cols : list string) (name : string) :
  In name cols ->
  expected sel cols name
  = if String.eqb name (location_col sel) || String.eqb name (flavor_col sel)
       || String.eqb name (weather_col sel) then 1
    else if String.eqb name "social_media_mentions" then social_mentions sel
    else if String.eqb name "holiday" then Z.b2z (is_holiday sel)
    else 0.
Proof.
  intros Hin. apply mem_In in Hin. unfold expected.
  destruct (String.eqb name (location_col sel)) eqn:El.
  { apply String.eqb_eq in El. subst name. now rewrite Hin. }
  destruct (String.eqb name (flavor_col sel)) eqn:Ef.
  { apply String.eqb_eq in Ef. subst name. now rewrite Hin. }
  destruct (String.eqb name (weather_col sel)) eqn:Ew.
  { apply String.eqb_eq in Ew. subst name. now rewrite Hin. }
  reflexivity.
Qed.

(** X1. For every schema of distinct labels and every selection, present
    in the schema or not, the encoder returns one cell per label of the
    schema, in the schema's order: 1 under a label that is the derived name
    of the selected weather, flavor or location, the mention count under
    ['social_media_mentions'], [int(is_holiday)] under ['holiday'], and 0
    under any other label. *)
Theorem encode_any_selection_in_schema_order (cols : list string) (sel : Selection) :
  NoDup cols ->
  exists row,
    encode cols sel = inr row
    /\ labels row = cols
    /\ forall i name, nth_error cols i = Some name ->
         exists v, nth_error (values row) i = Some v
           /\ (name = weather_col sel \/ name = flavor_col sel \/ name = location_col sel
               -> v = 1)
           /\ (name = "holiday" -> v = Z.b2z (is_holiday sel))
           /\ (name = "social_media_mentions" -> v = social_mentions sel)
           /\ (name <> weather_col sel -> name <> flavor_col sel ->
               name <> location_col sel -> name <> "holiday" ->
               name <> "social_media_mentions" -> v = 0).
Proof.
  intros Hnd. exists (map (fun k => (k, expected sel cols k)) cols).
  split; [now apply encode_distinct_general|].
  split; [unfold labels; rewrite map_map; simpl; apply map_id|].
  intros i name Hi. exists (expected sel cols name).
  split.
  { unfold values. rewrite map_map. simpl. now rewrite nth_error_map, Hi. }
  rewrite expected_in_schema by (eapply nth_error_In; eassumption).
  repeat split.
  - intros [E|[E|E]]; subst name; rewrite String.eqb_refl, ?orb_true_r; reflexivity.
  - intros E. subst name. reflexivity.
  - intros E. subst name. reflexivity.
  - intros N1 N2 N3 N4 N5.
    apply String.eqb_neq in N1, N2, N3, N4, N5.
    now rewrite N1, N2, N3, N4, N5.
Qed.

Lemma encode_any_selection_in_schema_order_witness :
  exists row,
    encode ["flavor_Mint"; "weather_Rainy"; "holiday"] EncoderExamples.sel = inr row
    /\ values row = [0; 1; 1].
Proof.
  destruct (encode_any_selection_in_schema_order
              ["flavor_Mint"; "weather_Rainy"; "holiday"] EncoderExamples.sel)
    as (row & E & _).
  - repeat constructor; simpl; intuition discriminate.
  - exists row. split; [exact E|].
    vm_compute in E. injection E as <-. reflexivity.
Defined.

End EncoderMore.

Module EncoderShape.
Import Frame Encoder FrameFacts EncoderFacts EncoderMore.

(** *** Cells are flags, apart from the mention count *)

Lemma In_setitem (name : string) (x : Z) (r : Row) (k : string) (v : Z) :
  In (k, v) (setitem name x r) ->
  (k = name /\ v = x) \/ (k <> name /\ In (k, v) r).
Proof.
  unfold setitem. destruct (has_column name r) eqn:Hc.
  - rewrite in_map_iff. intros ([k' v'] & E & Hin). simpl in E.
    destruct (String.eqb k' name) eqn:F.
    + apply String.eqb_eq in F. inversion E; subst. now left.
    + apply String.eqb_neq in F. inversion E; subst. now right.
  - rewrite in_app_iff. simpl. intros [Hin|[E|[]]].
    + right. split; [|assumption]. intros ->.
      apply has_column_false in Hc. apply Hc.
      unfold labels. apply in_map_iff. now exists (name, v).
    + inversion E; subst. now left.
Qed.

Lemma In_set_indicator (col : string) (r : Row) (k : string) (v : Z) :
  In (k, v) (set_indicator col r) -> (k = col /\ v = 1) \/ In (k, v) r.
Proof.
  unfold set_indicator. destruct (has_column col r); [|now right].
  intros H. apply In_setitem in H. tauto.
Qed.

Lemma In_getitem_list (keys : list string) (r row : Row) (k : string) (v : Z) :
  getitem_list keys r = inr row -> In (k, v) row -> In k keys /\ In (k, v) r.
Proof.
  unfold getitem_list. destruct (first_missing keys r); [discriminate|].
  intros E. injection E as <-. rewrite in_flat_map. intros (k' & Hk & Hin).
  unfold pick in Hin. apply filter_In in Hin. destruct Hin as [Hin F].
  simpl in F. apply String.eqb_eq in F. subst k'. split; assumption.
Qed.

(** X2. Whatever the schema (repeated labels included) and the
    selection, every cell of the encoded frame lies under a label of the
    schema and is 0 or 1, except the cells under ['social_media_mentions'],
    which hold the mention count. *)
Theorem encoded_cells_are_flags_or_count (cols : list string) (sel : Selection) :
  exists row,
    encode cols sel = inr row
    /\ forall k v, In (k, v) row ->
         In k cols
         /\ ((k = "social_media_mentions" /\ v = social_mentions sel)
             \/ (k <> "social_media_mentions" /\ (v = 0 \/ v = 1))).
Proof.
  destruct (encode_total cols sel) as [row E]. exists row. split; [exact E|].
  intros k v Hin. unfold encode in E.
  destruct (In_getitem_list _ _ _ _ _ E Hin) as [Hk Hr]. split; [exact Hk|].
  clear E Hin Hk row.
  unfold input_row, set_location, set_flavor, set_weather, set_social, set_holiday in Hr.
  assert (Hind : forall col r,
             String.eqb col "social_media_mentions" = false ->
             In (k, v) (set_indicator col r) ->
             (k <> "social_media_mentions" /\ v = 1) \/ In (k, v) r).
  { intros col r N H. apply In_set_indicator in H. destruct H as [[-> ->]|H]; [left|now right].
    split; [|reflexivity]. intros E. rewrite E, String.eqb_refl in N. discriminate. }
  apply Hind in Hr; [|reflexivity]. destruct Hr as [[N ->]|Hr]; [right; tauto|].
  apply Hind in Hr; [|reflexivity]. destruct Hr as [[N ->]|Hr]; [right; tauto|].
  apply Hind in Hr; [|reflexivity]. destruct Hr as [[N ->]|Hr]; [right; tauto|].
  apply In_setitem in Hr. destruct Hr as [[-> ->]|[N Hr]]; [left; tauto|].
  right. split; [exact N|].
  apply In_setitem in Hr. destruct Hr as [[-> ->]|[_ Hr]].
  - destruct (is_holiday sel); simpl; tauto.
  - unfold zeros in Hr. apply in_map_iff in Hr. destruct Hr as (c & E & _).
    inversion E. now left.
Qed.

(** *** Repeated labels *)

Lemma length_pick (k : string) (r : Row) :
  length (pick k r) = count_occ string_dec (labels r) k.
Proof.
  unfold pick, labels. induction r as [|[n x] r IH]; simpl; [reflexivity|].
  destruct (string_dec n k) as [->|N].
  - rewrite String.eqb_refl. simpl. now rewrite IH.
  - apply String.eqb_neq in N. now rewrite N.
Qed.

Lemma labels_input_row_app (cols : list string) (sel : Selection) :
  exists extra, labels (input_row cols sel) = cols ++ extra.
Proof.
  unfold input_row, set_location, set_flavor, set_weather, set_social, set_holiday.
  rewrite !labels_set_indicator, !labels_setitem, labels_zeros.
  repeat match goal with |- context [if ?b then _ else _] => destruct b end;
    first [ exists []; now rewrite app_nil_r
          | eexists; rewrite <- ?app_assoc; reflexivity ].
Qed.

Lemma repeated_label (l : list string) :
  ~ NoDup l -> exists x, In x l /\ (2 <= count_occ string_dec l x)%nat.
Proof.
  induction l as [|a l IH]; intros H.
  - exfalso. apply H. constructor.
  - destruct (in_dec string_dec a l) as [Hin|Hout].
    + exists a. split; [now left|]. simpl.
      destruct (string_dec a a); [|congruence].
      apply (count_occ_In string_dec) in Hin. lia.
    + destruct IH as (x & Hx & C).
      * intros Hnd. apply H. now constructor.
      * exists x. split; [now right|]. simpl.
        destruct (string_dec a x); lia.
Qed.

Lemma sum_counts (f : string -> nat) (cols l : list string) :
  (forall k, In k l -> (count_occ string_dec cols k <= f k)%nat) ->
  incl l cols ->
  (length l <= list_sum (map f l))%nat
  /\ ((exists x, In x l /\ (2 <= count_occ string_dec cols x)%nat) ->
      (length l < list_sum (map f l))%nat).
Proof.
  induction l as [|a l IH]; intros Hf Hincl; simpl.
  - split; [lia|]. intros (x & [] & _).
  - destruct IH as [IH1 IH2].
    + intros k Hk. apply Hf. now right.
    + intros k Hk. apply Hincl. now right.
    + assert (Ha : (1 <= count_occ string_dec cols a)%nat).
      { apply (count_occ_In string_dec), Hincl. now left. }
      pose proof (Hf a (or_introl eq_refl)) as Hfa.
      split; [lia|].
      intros (x & [->|Hx] & C).
      * specialize (Hf x (or_introl eq_refl)). lia.
      * assert (length l < list_sum (map f l))%nat by (apply IH2; now exists x). lia.
Qed.

(** X3. The encoded frame has as many columns as the schema exactly when
    the labels of the schema are distinct; with a repeated label it has
    more. *)
Theorem encoded_width_matches_iff_distinct (cols : list string) (sel : Selection) :
  exists row,
    encode cols sel = inr row
    /\ (NoDup cols -> length row = length cols)
    /\ (~ NoDup cols -> (length cols < length row)%nat).
Proof.
  destruct (encode_total cols sel) as [row E]. exists row. split; [exact E|]. split.
  - intros Hnd. rewrite (encode_distinct_general cols sel Hnd) in E.
    injection E as <-. apply length_map.
  - intros Hdup. unfold encode, getitem_list in E.
    destruct (first_missing cols (input_row cols sel)); [discriminate|].
    injection E as <-. rewrite length_flat_map.
    destruct (labels_input_row_app cols sel) as [extra L].
    apply (sum_counts (fun k => length (pick k (input_row cols sel))) cols cols).
    + intros k _. rewrite length_pick, L, count_occ_app. lia.
    + apply incl_refl.
    + destruct (repeated_label cols Hdup) as (x & Hx & C). now exists x.
Qed.

Lemma encoded_width_matches_iff_distinct_witness :
  exists row,
    encode ["holiday"; "flavor_Oreo"; "holiday"] EncoderExamples.sel = inr row
    /\ (3 < length row)%nat.
Proof.
  destruct (encoded_width_matches_iff_distinct
              ["holiday"; "flavor_Oreo"; "holiday"] EncoderExamples.sel)
    as (row & E & _ & L).
  exists row. split; [exact E|]. apply L.
  intros H. inversion H as [|? ? Hn _]. apply Hn. simpl. tauto.
Defined.

(** *** One indicator per group *)

Lemma derived_names (sel : Selection) (v : string) :
  String.eqb ("weather_" ++ v) (weather_col sel) = String.eqb v (weather_selected sel)
  /\ String.eqb ("flavor_" ++ v) (flavor_col sel) = String.eqb v (flavor_selected sel)
  /\ String.eqb ("location_" ++ v) (location_col sel) = String.eqb v (location_selected sel).
Proof. repeat split. Qed.

(** X4. For a schema of distinct labels, the cell under a label
    [weather_<v>] of the schema is 1 when [v] is the selected weather and 0
    otherwise, and likewise for [flavor_<v>] and [location_<v>]: in each
    group at most one indicator is set, that of the selected value. *)
Theorem one_indicator_per_group (cols : list string) (sel : Selection) :
  NoDup cols ->
  exists row,
    encode cols sel = inr row
    /\ forall i v,
         (nth_error cols i = Some ("weather_" ++ v)%string ->
          nth_error (values row) i
          = Some (if String.eqb v (weather_selected sel) then 1 else 0))
         /\ (nth_error cols i = Some ("flavor_" ++ v)%string ->
             nth_error (values row) i
             = Some (if String.eqb v (flavor_selected sel) then 1 else 0))
         /\ (nth_error cols i = Some ("location_" ++ v)%string ->
             nth_error (values row) i
             = Some (if String.eqb v (location_selected sel) then 1 else 0)).
Proof.
  intros Hnd. exists (map (fun k => (k, expected sel cols k)) cols).
  split; [now apply encode_distinct_general|].
  intros i v.
  assert (V : forall name, nth_error cols i = Some name ->
            nth_error (values (map (fun k => (k, expected sel cols k)) cols)) i
            = Some (if String.eqb name (location_col sel) || String.eqb name (flavor_col sel)
                       || String.eqb name (weather_col sel) then 1
                    else if String.eqb name "social_media_mentions" then social_mentions sel
                    else if String.eqb name "holiday" then Z.b2z (is_holiday sel)
                    else 0)).
  { intros name Hi. unfold values. rewrite map_map. simpl.
    rewrite nth_error_map, Hi. simpl. f_equal.
    apply expected_in_schema. eapply nth_error_In; eassumption. }
  destruct (derived_names sel v) as (Dw & Df & Dl).
  repeat split; intros Hi; rewrite (V _ Hi).
  - rewrite Dw. change (String.eqb ("weather_" ++ v) (location_col sel)) with false.
    change (String.eqb ("weather_" ++ v) (flavor_col sel)) with false.
    simpl orb. destruct (String.eqb v (weather_selected sel)); reflexivity.
  - rewrite Df. change (String.eqb ("flavor_" ++ v) (location_col sel)) with false.
    simpl orb. destruct (String.eqb v (flavor_selected sel)); reflexivity.
  - rewrite Dl. simpl orb. destruct (String.eqb v (location_selected sel)); reflexivity.
Qed.

Lemma one_indicator_per_group_witness :
  exists row,
    encode EncoderExamples.schema EncoderExamples.sel = inr row
    /\ nth_error (values row) 2 = Some 0 /\ nth_error (values row) 3 = Some 1.
Proof.
  destruct (one_indicator_per_group EncoderExamples.schema EncoderExamples.sel)
    as (row & E & H).
  - repeat constructor; simpl; intuition discriminate.
  - exists row. split; [exact E|]. split.
    + destruct (H 2%nat "Sunny") as (W & _ & _). now apply W.
    + destruct (H 3%nat "Rainy") as (W & _ & _). now apply W.
Defined.

End EncoderShape.

(** ** More on the recommendation arithmetic *)

Module RecommendMore.
Import Float64 Recommend FloatFacts RecommendSpec.

(** A finite number divided by itself is exactly 1. *)
Lemma div_self (s : bool) (m : positive) (e : Z) :
  valid (S754_finite s m e) = true ->
  div (S754_finite s m e) (S754_finite s m e) = of_Z 1.
Proof.
  intros V. pose proof (valid_emin s m e V) as [He _].
  rewrite one_repr. replace false with (xorb s s) by apply xorb_nilpotent.
  apply div_exact; [lia | lia | reflexivity |].
  replace (e + 2148) with (52 + (e + 2096)) by lia.
  replace (-52 + e + 2148) with (e + 2096) by lia.
  rewrite (pow2_split 52 (e + 2096)) by lia.
  change (2 ^ 52) with 4503599627370496. ring.
Qed.

(** X5. When the prediction equals the historical average (any finite
    nonzero binary64), [change_pct] is exactly [+0.0] and the Steady actions
    are chosen, without any conversion to an integer. *)
Theorem prediction_equal_to_average_is_steady (s : bool) (m : positive) (e : Z) :
  valid (S754_finite s m e) = true ->
  change_pct (S754_finite s m e) (S754_finite s m e) = S754_zero false
  /\ action_bundle (S754_finite s m e)
       (change_pct (S754_finite s m e) (S754_finite s m e)) = inr Steady.
Proof.
  intros V.
  assert (C : change_pct (S754_finite s m e) (S754_finite s m e) = S754_zero false).
  { unfold change_pct. rewrite (div_self s m e V). reflexivity. }
  split; [exact C|]. rewrite C. reflexivity.
Qed.

Lemma prediction_equal_to_average_is_steady_witness :
  change_pct (of_Z 137) (of_Z 137) = S754_zero false.
Proof.
  exact (proj1 (prediction_equal_to_average_is_steady false 4820259976170496 (-45)
                  eq_refl)).
Defined.

(** The floor of the exact quotient, through the value in units of 2^-1074. *)
Lemma exact_floor_quot_sval (p : float) (d : Z) :
  valid p = true -> 0 < d ->
  exact_floor_quot p d = sval p / (d * 2 ^ 1074).
Proof.
  intros V Hd. destruct p as [s|s| |s m e]; try reflexivity.
  pose proof (valid_emin s m e V) as [He _].
  now apply exact_floor_quot_scaled.
Qed.

(** X6. For a prediction that is not negative and below 2^53, the staff
    estimate lies between 0 and the batch count, and the batch count [b] is
    the number of whole dozens: [12 * b <= prediction < 12 * (b + 1)]
    (values in units of 2^-1074). *)
Theorem nonnegative_prediction_counts (p : float) :
  valid p = true -> ltb (abs p) (of_Z (2 ^ 53)) = true -> sign_bit p = false ->
  exists b st,
    batches p = inr b /\ staff_estimate p = inr st
    /\ 0 <= st <= b
    /\ 12 * b * 2 ^ 1074 <= sval p < 12 * (b + 1) * 2 ^ 1074.
Proof.
  intros V L S.
  exists (exact_floor_quot p 12), (exact_floor_quot p 150).
  split; [now apply batches_exact|]. split; [now apply staff_estimate_exact|].
  rewrite !exact_floor_quot_sval by (assumption || lia).
  assert (P : 0 < 2 ^ 1074) by (apply pow2_pos; lia).
  assert (Hp : 0 <= sval p).
  { destruct p as [s|s| |s m e]; try (unfold sval; lia).
    unfold sign_bit in S. subst s. unfold sval, cond_Zopp.
    apply Z.mul_nonneg_nonneg; [lia | apply Z.pow_nonneg; lia]. }
  set (v := sval p) in *. set (u := 2 ^ 1074) in *.
  split; [split|].
  - apply Z.div_pos; lia.
  - apply Z.div_le_compat_l; lia.
  - pose proof (Z.mul_div_le v (12 * u) ltac:(lia)).
    pose proof (Z.mul_succ_div_gt v (12 * u) ltac:(lia)).
    lia.
Qed.

Lemma nonnegative_prediction_counts_witness :
  exists b st, batches (of_Z 1000) = inr b /\ staff_estimate (of_Z 1000) = inr st
               /\ 0 <= st <= b.
Proof.
  destruct (nonnegative_prediction_counts (of_Z 1000))
    as (b & st & B & S & H & _); [reflexivity | reflexivity | reflexivity |].
  exists b, st. repeat split; tauto.
Defined.

(** X7. A negative prediction below 2^53 in magnitude is not clamped: the
    batch count and the staff estimate are negative. *)
Theorem negative_prediction_counts (m : positive) (e : Z) :
  valid (S754_finite true m e) = true ->
  ltb (abs (S754_finite true m e)) (of_Z (2 ^ 53)) = true ->
  exists b st,
    batches (S754_finite true m e) = inr b
    /\ staff_estimate (S754_finite true m e) = inr st
    /\ b <= st <= -1.
Proof.
  intros V L.
  exists (exact_floor_quot (S754_finite true m e) 12),
         (exact_floor_quot (S754_finite true m e) 150).
  split; [now apply batches_exact|]. split; [now apply staff_estimate_exact|].
  rewrite !exact_floor_quot_sval by (assumption || lia).
  pose proof (valid_emin true m e V) as [He _].
  assert (P : 0 < 2 ^ 1074) by (apply pow2_pos; lia).
  assert (Hp : sval (S754_finite true m e) < 0).
  { unfold sval, cond_Zopp.
    assert (0 < Zpos m * 2 ^ (e + 1074))
      by (apply Z.mul_pos_pos; [lia | apply pow2_pos; lia]).
    lia. }
  set (v := sval (S754_finite true m e)) in *. set (u := 2 ^ 1074) in *.
  assert (H150 : v / (150 * u) < 0) by (apply Z.div_lt_upper_bound; lia).
  split; [|lia].
  (* v / (12 u) <= v / (150 u) for v < 0 *)
  apply Z.div_le_lower_bound; [lia|].
  pose proof (Z.mul_div_le v (12 * u) ltac:(lia)).
  pose proof (Z.mul_succ_div_gt v (12 * u) ltac:(lia)).
  pose proof (Z.mul_div_le v (150 * u) ltac:(lia)).
  pose proof (Z.mul_succ_div_gt v (150 * u) ltac:(lia)).
  assert (Hb : v / (12 * u) < 0) by (apply Z.div_lt_upper_bound; lia).
  nia.
Qed.

Lemma negative_prediction_counts_witness :
  exists b st, batches (of_Z (-5)) = inr b /\ staff_estimate (of_Z (-5)) = inr st
               /\ b <= st <= -1.
Proof.
  exact (negative_prediction_counts 5629499534213120 (-50) eq_refl eq_refl).
Defined.

End RecommendMore.

(** ** More on loading *)

Module LoaderMore.
Import Dataset Loader LoaderSpec.

Section Load.
Variable RandomState : Type.
Variable randint : Z -> Z -> nat -> RandomState -> list Z * RandomState.

Lemma normalize_cases (d : DataFrame) (g : RandomState) :
  (has_column "sales" d = true
   /\ normalize RandomState randint d g = (rename "sales" "units_sold" d, g))
  \/ (has_column "sales" d = false /\ has_column "units_sold" d = true
      /\ normalize RandomState randint d g = (d, g))
  \/ (has_column "sales" d = false /\ has_column "units_sold" d = false
      /\ normalize RandomState randint d g
         = (set_column "units_sold" (map Int (fst (randint 50 200 (nrows d) g))) d,
            snd (randint 50 200 (nrows d) g))).
Proof.
  unfold normalize. destruct (has_column "sales" d); [now left|].
  destruct (has_column "units_sold" d); simpl; [right; now left|].
  right. right. destruct (randint 50 200 (nrows d) g). now repeat split.
Qed.

Lemma labels_set_column_absent (name : string) (vals : Column) (d : DataFrame) :
  has_column name d = false ->
  has_column "sales" (set_column name vals d)
  = existsb (String.eqb "sales") (column_labels d ++ [name]).
Proof.
  intros H. unfold has_column at 1. f_equal.
  unfold column_labels, set_column. simpl. rewrite H. now rewrite map_app.
Qed.

(** X8. Loading keeps the table: the number of rows is unchanged, the
    cells of the source columns come out in the same order (at most one
    column is added, on the right), and every column not called ['sales']
    keeps its label. *)
Theorem load_data_keeps_the_table (d : DataFrame) (g : RandomState) :
  exists d' g',
    load_data RandomState randint (inr d) g = (Some d', g')
    /\ nrows d' = nrows d
    /\ (exists extra, map snd (columns d') = map snd (columns d) ++ extra
                      /\ (length extra <= 1)%nat)
    /\ forall label cells,
         In (label, cells) (columns d) -> label <> "sales" ->
         In (label, cells) (columns d').
Proof.
  unfold load_data.
  destruct (normalize_cases d g) as [[Hs E]|[(Hs & Hu & E)|(Hs & Hu & E)]]; rewrite E.
  - eexists. eexists. split; [reflexivity|]. split; [reflexivity|]. split.
    + exists []. unfold rename. simpl. rewrite map_map, app_nil_r. simpl.
      split; [reflexivity | lia].
    + intros label cells Hin N. unfold rename. simpl. apply in_map_iff.
      exists (label, cells). split; [|assumption]. simpl.
      apply String.eqb_neq in N. now rewrite N.
  - eexists. eexists. split; [reflexivity|]. split; [reflexivity|]. split.
    + exists []. rewrite app_nil_r. split; [reflexivity | simpl; lia].
    + intros. assumption.
  - eexists. eexists. split; [reflexivity|]. split; [reflexivity|].
    unfold set_column. simpl. rewrite Hu. split.
    + eexists. rewrite map_app. split; [reflexivity | simpl; lia].
    + intros label cells Hin _. apply in_or_app. now left.
Qed.

Lemma count_rename (l : list (string * Column)) :
  count_occ string_dec
    (map fst (map (fun c => (if String.eqb (fst c) "sales" then "units_sold" else fst c, snd c)) l))
    "units_sold"
  = (count_occ string_dec (map fst l) "sales"
     + count_occ string_dec (map fst l) "units_sold")%nat.
Proof.
  induction l as [|[n c] l IH]; simpl; [reflexivity|].
  destruct (String.eqb n "sales") eqn:E.
  - apply String.eqb_eq in E. subst n.
    destruct (string_dec "units_sold" "units_sold"); [|congruence].
    destruct (string_dec "sales" "sales"); [|congruence].
    destruct (string_dec "sales" "units_sold"); [discriminate|]. lia.
  - apply String.eqb_neq in E.
    destruct (string_dec n "sales"); [contradiction|].
    destruct (string_dec n "units_sold"); lia.
Qed.

(** X9. A source that has both a ['sales'] and a ['units_sold'] column is
    loaded without error and without drawing random numbers, and comes out
    with two columns labelled ['units_sold']: the renaming does not replace
    the existing column. *)
Theorem load_data_with_both_columns (d : DataFrame) (g : RandomState) :
  has_column "sales" d = true -> has_column "units_sold" d = true ->
  exists d',
    load_data RandomState randint (inr d) g = (Some d', g)
    /\ (2 <= count_occ string_dec (column_labels d') "units_sold")%nat
    /\ has_column "sales" d' = false.
Proof.
  intros Hs Hu. unfold load_data, normalize. rewrite Hs.
  eexists. split; [reflexivity|]. split.
  - unfold column_labels, rename. simpl. rewrite count_rename.
    apply dataset_has_column_In, (count_occ_In string_dec) in Hs, Hu.
    unfold column_labels in *. lia.
  - now apply rename_sales.
Qed.

(** X10. Loading is idempotent on the table: a table that [load_data]
    returned goes through it again unchanged, and no random number is
    drawn on the way. *)
Theorem load_data_idempotent (d : DataFrame) (g g2 : RandomState) :
  exists d' g',
    load_data RandomState randint (inr d) g = (Some d', g')
    /\ has_column "sales" d' = false
    /\ load_data RandomState randint (inr d') g2 = (Some d', g2).
Proof.
  unfold load_data.
  destruct (normalize_cases d g) as [[Hs E]|[(Hs & Hu & E)|(Hs & Hu & E)]]; rewrite E;
    eexists; eexists; (split; [reflexivity|]).
  - destruct (rename_sales d Hs) as [R1 R2]. split; [exact R1|].
    unfold normalize. now rewrite R1, R2.
  - split; [exact Hs|]. unfold normalize. now rewrite Hs, Hu.
  - assert (S' : has_column "sales"
                   (set_column "units_sold" (map Int (fst (randint 50 200 (nrows d) g))) d)
                 = false).
    { rewrite (labels_set_column_absent _ _ _ Hu).
      destruct (has_column "sales" d) eqn:F; [discriminate Hs|].
      unfold has_column in *. rewrite existsb_app, F. reflexivity. }
    split; [exact S'|].
    unfold normalize. rewrite S', has_column_set_column. reflexivity.
Qed.

End Load.

Lemma load_data_with_both_columns_witness :
  exists d',
    load_data Z lcg_randint
      (inr {| nrows := 1;
              columns := [("sales", [Int 3]); ("units_sold", [Int 4])] |}) 7
    = (Some d', 7)
    /\ (2 <= count_occ string_dec (column_labels d') "units_sold")%nat.
Proof.
  destruct (load_data_with_both_columns Z lcg_randint
              {| nrows := 1; columns := [("sales", [Int 3]); ("units_sold", [Int 4])] |} 7)
    as (d' & E & C & _); [reflexivity | reflexivity |].
  exists d'. split; assumption.
Defined.

End LoaderMore.

(** ** The dataset operations of the main block and of the sidebar *)

Module DatasetFacts.
Import Float64 Dataset Sidebar LoaderSpec.

(** *** Columns *)

Lemma get_column_missing (name : string) (d : DataFrame) :
  has_column name d = false <-> get_column name d = inl (KeyError name).
Proof.
  unfold has_column, column_labels, get_column.
  induction (columns d) as [|[n c] l IH]; simpl.
  - tauto.
  - rewrite (String.eqb_sym name n). destruct (String.eqb n name); simpl.
    + split; discriminate.
    + exact IH.
Qed.

Lemma get_column_present (name : string) (d : DataFrame) :
  has_column name d = true <-> exists c, get_column name d = inr c.
Proof.
  destruct (has_column name d) eqn:E.
  - split; [intros _|reflexivity].
    destruct (get_column name d) as [e|c] eqn:G; [|now exists c].
    unfold get_column in G.
    destruct (find _ (columns d)) eqn:F; [discriminate|].
    apply dataset_has_column_In in E. unfold column_labels in E.
    apply in_map_iff in E. destruct E as ([n c] & En & Hin). simpl in En. subst n.
    apply (find_none _ _ F) in Hin. simpl in Hin. rewrite String.eqb_refl in Hin.
    discriminate.
  - apply get_column_missing in E. split; [discriminate|].
    intros [c G]. rewrite G in E. discriminate.
Qed.

(** *** Row selection *)

Lemma mask_filter_map {A : Type} (f : A -> bool) (l : list A) :
  mask_filter (map f l) l = filter f l.
Proof.
  induction l as [|x l IH]; simpl; [reflexivity|].
  destruct (f x); now rewrite IH.
Qed.

Lemma length_mask_filter {A : Type} (mask : list bool) (l : list A) :
  length mask = length l ->
  length (mask_filter mask l) = length (filter (fun b => b) mask).
Proof.
  revert l. induction mask as [|b mask IH]; intros [|x l] H; simpl in *; try discriminate.
  - reflexivity.
  - injection H as H. destruct b; simpl; now rewrite IH.
Qed.

Lemma length_filter_map {A : Type} (f : A -> bool) (l : list A) :
  length (filter (fun b => b) (map f l)) = length (filter f l).
Proof.
  induction l as [|x l IH]; simpl; [reflexivity|].
  destruct (f x); simpl; now rewrite IH.
Qed.

Lemma get_column_select_rows (mask : list bool) (name : string) (d : DataFrame) (c : Column) :
  get_column name d = inr c ->
  get_column name (select_rows mask d) = inr (mask_filter mask c).
Proof.
  unfold get_column, select_rows. simpl.
  induction (columns d) as [|[n x] l IH]; simpl; [discriminate|].
  destruct (String.eqb n name).
  - intros E. injection E as <-. reflexivity.
  - exact IH.
Qed.

(** X11. [df[df[col] == v]]: in a table with distinct labels, when the
    column exists with one cell per row, the selection succeeds, keeps the
    labels of the table, keeps in every column exactly the cells of the rows
    whose cell under [col] is the string [v] (in their order), and counts
    those rows. *)
Theorem where_eq_keeps_matching_rows (col v : string) (d : DataFrame) (c : Column) :
  NoDup (column_labels d) ->
  get_column col d = inr c -> length c = nrows d ->
  exists d',
    where_eq col v d = inr d'
    /\ column_labels d' = column_labels d
    /\ nrows d' = length (filter (eq_str v) c)
    /\ get_column col d' = inr (filter (eq_str v) c)
    /\ Forall (fun x => x = Str v) (filter (eq_str v) c)
    /\ forall name cells,
         get_column name d = inr cells ->
         get_column name d' = inr (mask_filter (map (eq_str v) c) cells).
Proof.
  intros _ G L. unfold where_eq. rewrite G. eexists. split; [reflexivity|].
  split; [|split; [|split; [|split]]].
  - unfold column_labels, select_rows. simpl. now rewrite map_map.
  - unfold select_rows. simpl.
    replace (nrows d) with (length (map (eq_str v) c)) by (now rewrite length_map).
    rewrite firstn_all. apply length_filter_map.
  - rewrite (get_column_select_rows _ _ _ _ G). now rewrite mask_filter_map.
  - apply Forall_forall. intros x Hx. apply filter_In in Hx. destruct Hx as [_ Hx].
    destruct x as [s| |]; try discriminate. simpl in Hx.
    apply String.eqb_eq in Hx. now subst.
  - intros name cells Gn. now apply get_column_select_rows.
Qed.

Lemma where_eq_keeps_matching_rows_witness :
  exists d',
    where_eq "flavor" "Oreo" SessionExamples.history = inr d'
    /\ nrows d' = 2%nat
    /\ get_column "units_sold" d' = inr [Int 140; Int 160].
Proof.
  destruct (where_eq_keeps_matching_rows "flavor" "Oreo" SessionExamples.history
              [Str "Oreo"; Str "Mint"; Str "Oreo"; Str "Mint"])
    as (d' & E & _ & N & _ & _ & H).
  - repeat constructor; simpl; intuition discriminate.
  - reflexivity.
  - reflexivity.
  - exists d'. split; [exact E|]. split; [exact N|].
    apply (H "units_sold" [Int 140; Int 90; Int 160; Int 110]). reflexivity.
Defined.

(** *** Group keys *)

Lemma cell_eqb_str (s : string) (c : Cell) : cell_eqb (Str s) c = true -> c = Str s.
Proof.
  destruct c as [t| |]; simpl; try discriminate.
  intros E. apply String.eqb_eq in E. now subst.
Qed.

Lemma cell_eqb_str_l (s : string) (c : Cell) : cell_eqb c (Str s) = true -> c = Str s.
Proof.
  destruct c as [t| |]; simpl; try discriminate.
  intros E. apply String.eqb_eq in E. now subst.
Qed.

Lemma insert_key_In_str (s : string) (k : Cell) (l : list Cell) :
  In (Str s) (insert_key k l) <-> Str s = k \/ In (Str s) l.
Proof.
  induction l as [|h t IH]; simpl.
  - intuition.
  - destruct (cell_eqb k h) eqn:E.
    + simpl. split; [tauto|]. intros [K|H]; [|exact H].
      subst k. apply cell_eqb_str in E. now left.
    + destruct (cell_leb k h); simpl; [intuition|]. rewrite IH. intuition.
Qed.

Lemma group_keys_In_str (s : string) (c : Column) :
  In (Str s) (group_keys c) <-> In (Str s) c.
Proof.
  unfold group_keys. induction c as [|k c IH]; simpl; [tauto|].
  rewrite insert_key_In_str, IH. intuition.
Qed.

Lemma insert_key_is_str (k : Cell) (l : list Cell) :
  is_str k = true -> forallb is_str l = true -> forallb is_str (insert_key k l) = true.
Proof.
  intros Hk. induction l as [|h t IH]; simpl; intros H.
  - now rewrite Hk.
  - apply andb_true_iff in H. destruct H as [Hh Ht].
    destruct (cell_eqb k h); [simpl; now rewrite Hh, Ht|].
    destruct (cell_leb k h); simpl; [now rewrite Hk, Hh, Ht|].
    now rewrite Hh, IH.
Qed.

Lemma increasing_cons (a : Cell) (l : list Cell) :
  increasing (a :: l) = true ->
  increasing l = true.
Proof.
  destruct l as [|b t]; [reflexivity|]. simpl.
  intros H. apply andb_true_iff in H. tauto.
Qed.

Lemma insert_key_head (k h : Cell) (t : list Cell) :
  is_str k = true -> is_str h = true ->
  cell_eqb k h = false -> cell_leb k h = false ->
  increasing (h :: t) = true -> increasing (insert_key k t) = true ->
  increasing (h :: insert_key k t) = true.
Proof.
  intros Sk Sh E L Hht Hins.
  assert (Hhk : cell_leb h k = true /\ cell_eqb h k = false).
  { destruct k as [a| |], h as [b| |]; try discriminate. simpl in *.
    split.
    - destruct (String.leb_total a b) as [T|T]; [congruence | exact T].
    - now rewrite String.eqb_sym. }
  destruct Hhk as [Lhk Ehk].
  destruct t as [|h2 t2]; simpl in *.
  - now rewrite Lhk, Ehk.
  - destruct (cell_eqb k h2) eqn:E2; [exact Hht|].
    destruct (cell_leb k h2) eqn:L2.
    + simpl in Hins. simpl. rewrite Lhk, Ehk. exact Hins.
    + apply andb_true_iff in Hht. destruct Hht as [Hh _].
      change (increasing (h2 :: insert_key k t2) = true) in Hins.
      change (cell_leb h h2 && negb (cell_eqb h h2) && increasing (h2 :: insert_key k t2) = true).
      now rewrite Hh, Hins.
Qed.

Lemma insert_key_increasing (k : Cell) (l : list Cell) :
  is_str k = true -> forallb is_str l = true ->
  increasing l = true -> increasing (insert_key k l) = true.
Proof.
  intros Sk. induction l as [|h t IH]; intros Sl Hl; [reflexivity|].
  simpl in Sl. apply andb_true_iff in Sl. destruct Sl as [Sh St].
  simpl insert_key.
  destruct (cell_eqb k h) eqn:E; [exact Hl|].
  destruct (cell_leb k h) eqn:L.
  - change (cell_leb k h && negb (cell_eqb k h) && increasing (h :: t) = true).
    now rewrite L, E, Hl.
  - apply insert_key_head; try assumption.
    apply IH; [assumption | now apply increasing_cons in Hl].
Qed.

Lemma group_keys_is_str (c : Column) :
  forallb is_str c = true -> forallb is_str (group_keys c) = true.
Proof.
  unfold group_keys. induction c as [|k c IH]; intros S; [reflexivity|].
  simpl in S. apply andb_true_iff in S. destruct S as [Sk Sc]. simpl.
  apply insert_key_is_str; [assumption | now apply IH].
Qed.

Lemma group_keys_increasing (c : Column) :
  forallb is_str c = true -> increasing (group_keys c) = true.
Proof.
  induction c as [|k c IH]; intros S; [reflexivity|].
  simpl in S. apply andb_true_iff in S. destruct S as [Sk Sc].
  change (group_keys (k :: c)) with (insert_key k (group_keys c)).
  apply insert_key_increasing; [assumption | now apply group_keys_is_str | now apply IH].
Qed.

(** X12. The options of a select box over a column of strings (and the
    keys of a group-by over it) are exactly the strings that occur in the
    column, in order, each one strictly below the next; a missing column
    raises [KeyError] with its name. *)
Theorem options_sorted_distinct_complete (col : string) (d : DataFrame) :
  (has_column col d = false -> options col d = inl (KeyError col))
  /\ (forall c, get_column col d = inr c -> forallb is_str c = true ->
        exists opts,
          options col d = inr opts
          /\ increasing opts = true
          /\ forallb is_str opts = true
          /\ forall s, In (Str s) opts <-> In (Str s) c).
Proof.
  split.
  - intros H. unfold options. apply get_column_missing in H. now rewrite H.
  - intros c G S. unfold options. rewrite G. eexists. split; [reflexivity|].
    split; [now apply group_keys_increasing|].
    split; [now apply group_keys_is_str|].
    intros s. apply group_keys_In_str.
Qed.

Lemma options_sorted_distinct_complete_witness :
  options "flavor" SessionExamples.history = inr [Str "Mint"; Str "Oreo"]
  /\ options "week" SessionExamples.history = inl (KeyError "week").
Proof.
  destruct (options_sorted_distinct_complete "week" SessionExamples.history) as [M _].
  destruct (options_sorted_distinct_complete "flavor" SessionExamples.history) as [_ P].
  split; [|apply M; reflexivity].
  destruct (P [Str "Oreo"; Str "Mint"; Str "Oreo"; Str "Mint"] eq_refl eq_refl)
    as (opts & E & _).
  rewrite E. vm_compute in E. injection E as <-. reflexivity.
Defined.

End DatasetFacts.

(** ** More on one run of the script *)

Module SessionMore.
Import Frame Encoder Float64 Recommend Dataset Session SessionView.
Import EncoderFacts RecommendSpec SessionSpec.

Lemma with_page_nil (w : World) : with_page w [] = w.
Proof. destruct w. unfold with_page. simpl. now rewrite app_nil_r. Qed.

Lemma with_page_app (w : World) (a b : list Widget) :
  with_page (with_page w a) b = with_page w (a ++ b).
Proof. unfold with_page. simpl. now rewrite app_assoc. Qed.


(** *** The page only grows *)

Lemma only_shows_ret {A : Type} (a : A) : only_shows (ret a).
Proof. intros w. exists []. simpl. now rewrite with_page_nil. Qed.

Lemma only_shows_lift {A : Type} (r : exn + A) : only_shows (lift r).
Proof. intros w. exists []. simpl. now rewrite with_page_nil. Qed.

Lemma only_shows_read {A : Type} (f : World -> A) : only_shows (read f).
Proof. intros w. exists []. simpl. now rewrite with_page_nil. Qed.

Lemma only_shows_show (x : Widget) : only_shows (show x).
Proof. intros w. now exists [x]. Qed.

Lemma only_shows_bind {A B : Type} (c : M A) (k : A -> M B) :
  only_shows c -> (forall a, only_shows (k a)) -> only_shows (bind c k).
Proof.
  intros Hc Hk w. unfold bind. destruct (Hc w) as [a1 E1].
  destruct (c w) as [[e|a] w']; simpl in *; [now exists a1|].
  destruct (Hk a w') as [a2 E2]. exists (a1 ++ a2).
  now rewrite E2, E1, with_page_app.
Qed.

Lemma only_shows_try {A : Type} (body : M A) (handler : exn -> M A) :
  only_shows body -> (forall e, only_shows (handler e)) ->
  only_shows (try_except body handler).
Proof.
  intros Hb Hh w. unfold try_except. destruct (Hb w) as [a1 E1].
  destruct (body w) as [[e|a] w']; simpl in *; [|now exists a1].
  destruct (Hh e w') as [a2 E2]. exists (a1 ++ a2).
  now rewrite E2, E1, with_page_app.
Qed.

Lemma only_shows_when (b : bool) (c : M unit) : only_shows c -> only_shows (when b c).
Proof. intros H. destruct b; [exact H | apply only_shows_ret]. Qed.

Ltac only_shows_steps :=
  repeat first
    [ apply only_shows_ret
    | apply only_shows_lift
    | apply only_shows_read
    | apply only_shows_show
    | apply only_shows_when
    | apply only_shows_bind; [|intros ?]
    | apply only_shows_try; [|intros ?]
    | match goal with
      | |- only_shows (match ?x with _ => _ end) => destruct x
      end ].

(** X13. Whatever the model, the mean kernel and the state, and whether
    the cycle ends normally or in an exception, its only effect on the
    script's state is to append widgets to the page: what was shown before
    stays, in place, and dataset, schema and selection are untouched. *)
Theorem cycle_only_appends_to_the_page
    (predict : Row -> exn + float) (mean : Column -> exn + float) (w : World) :
  exists added,
    snd (generate predict mean w)
    = {| df := df w; feature_columns := feature_columns w;
         selection := selection w; page := page w ++ added |}.
Proof.
  assert (H : only_shows (generate predict mean)).
  { unfold generate, make_prediction, encode_input, results, prediction_card,
      action_card, charts.
    apply only_shows_bind; [only_shows_steps|]. intros pr.
    destruct (truthy pr); [|apply only_shows_ret].
    destruct pr; only_shows_steps. }
  exact (H w).
Qed.

(** *** A failed prediction *)

(** X14. When the model raises on the encoded frame, the exception is
    caught: the cycle ends normally, shows the error box and nothing else
    (no summary, metric, recommendation or chart). *)
Theorem failed_prediction_shows_only_the_error
    (predict : Row -> exn + float) (mean : Column -> exn + float)
    (w : World) (row : Row) (e : exn) :
  encode (feature_columns w) (selection w) = inr row ->
  predict row = inl e ->
  generate predict mean w = (inr tt, with_page w [ErrorBox e]).
Proof.
  intros E P.
  destruct (encode_input_run w) as (row' & E' & R).
  rewrite E in E'. injection E' as <-.
  unfold generate, make_prediction, try_except, bind at 1 2 3.
  rewrite R. unfold lift. rewrite P. reflexivity.
Qed.

Lemma failed_prediction_shows_only_the_error_witness :
  generate (fun _ => inl ModelError) SessionExamples.int_mean SessionExamples.world
  = (inr tt, with_page SessionExamples.world [ErrorBox ModelError]).
Proof.
  apply (failed_prediction_shows_only_the_error (fun _ => inl ModelError)
           SessionExamples.int_mean SessionExamples.world
           [("holiday", 1); ("social_media_mentions", 42);
           ("weather_Sunny", 0); ("weather_Rainy", 1);
           ("flavor_Oreo", 1); ("flavor_Pink Sugar", 0);
           ("location_Utah", 0); ("location_Texas", 1)]
           ModelError); reflexivity.
Defined.

End SessionMore.

(** ** The sidebar and the main block, lines 77-118 and 166-283 *)

Module MainBlock.
Import Frame Encoder Float64 Recommend Dataset Sidebar Session SessionView.
Import EncoderFacts RecommendSpec SessionSpec DatasetFacts SessionMore.

(** *** Running statements *)










(** *** The select boxes *)

Lemma options_inv (col : string) (d : DataFrame) (opts : list Cell) :
  options col d = inr opts ->
  exists c, get_column col d = inr c /\ opts = group_keys c.
Proof.
  unfold options. destruct (get_column col d) as [e|c]; [discriminate|].
  intros E. injection E as <-. now exists c.
Qed.

Lemma options_missing (col : string) (d : DataFrame) :
  has_column col d = false -> options col d = inl (KeyError col).
Proof.
  intros H. unfold options. apply get_column_missing in H. now rewrite H.
Qed.

Lemma options_present (col : string) (d : DataFrame) :
  has_column col d = true -> exists o, options col d = inr o.
Proof.
  intros H. unfold options. apply get_column_present in H.
  destruct H as [c G]. rewrite G. now eexists.
Qed.

(** X15. The three select boxes need the columns ['flavor'], ['weather']
    and ['location'].  In a table with distinct labels whose categorical
    columns hold strings (so that [sorted] compares like with like),
    building the boxes succeeds exactly when the table has all three
    columns, and otherwise raises [KeyError] for the first one missing, in
    the order flavor, weather, location. *)
Theorem select_boxes_need_three_columns (d : DataFrame) :
  NoDup (column_labels d) ->
  (forall col c, In col ["flavor"; "weather"; "location"] ->
                 get_column col d = inr c -> forallb is_str c = true) ->
  ((exists boxes, select_boxes d = inr boxes)
   <-> has_column "flavor" d = true /\ has_column "weather" d = true
       /\ has_column "location" d = true)
  /\ (has_column "flavor" d = false -> select_boxes d = inl (KeyError "flavor"))
  /\ (has_column "flavor" d = true -> has_column "weather" d = false ->
      select_boxes d = inl (KeyError "weather"))
  /\ (has_column "flavor" d = true -> has_column "weather" d = true ->
      has_column "location" d = false -> select_boxes d = inl (KeyError "location")).
Proof.
  intros _ _. unfold select_boxes.
  destruct (has_column "flavor" d) eqn:Hf.
  - destruct (options_present _ _ Hf) as [fl ->].
    destruct (has_column "weather" d) eqn:Hw.
    + destruct (options_present _ _ Hw) as [we ->].
      destruct (has_column "location" d) eqn:Hl.
      * destruct (options_present _ _ Hl) as [lo ->].
        split; [|split; [|split]]; try (intros; discriminate).
        split; [tauto|]. intros _. now eexists.
      * rewrite (options_missing _ _ Hl).
        split; [|split; [|split]]; try (intros; discriminate).
        -- split; [intros [b E]; discriminate E | intros (_ & _ & E); discriminate E].
        -- reflexivity.
    + rewrite (options_missing _ _ Hw).
      split; [|split; [|split]]; try (intros; discriminate).
      * split; [intros [b E]; discriminate E | intros (_ & E & _); discriminate E].
      * reflexivity.
  - rewrite (options_missing _ _ Hf).
    split; [|split; [|split]]; try (intros; discriminate).
    + split; [intros [b E]; discriminate E | intros (E & _); discriminate E].
    + reflexivity.
Qed.

Section Run.
Variable mean : Column -> exn + float.

(** *** The historical average *)

Lemma mean_of_groups_ok (ks : list Cell) (keys vals : Column) :
  (forall k, In k ks -> exists m, mean (group_values k keys vals) = inr m) ->
  exists s,
    mean_of_groups mean ks keys vals = inr s
    /\ map fst s = ks
    /\ forall k m, In (k, m) s -> mean (group_values k keys vals) = inr m.
Proof.
  induction ks as [|k ks IH]; intros H; simpl.
  - exists []. repeat split. intros k m [].
  - destruct (H k (or_introl eq_refl)) as [m Hm]. rewrite Hm.
    destruct IH as (s & E & F & G); [intros k' Hk'; apply H; now right|].
    rewrite E. exists ((k, m) :: s). split; [reflexivity|]. split; [simpl; now rewrite F|].
    intros k' m' [X|X]; [inversion X; now subst | now apply G].
Qed.

Lemma series_get_found (f : string) (s : Series) :
  In (Str f) (map fst s) -> exists m, series_get f s = inr m /\ In (Str f, m) s.
Proof.
  unfold series_get. induction s as [|[k m] s IH]; simpl; [tauto|].
  intros H. destruct (eq_str f k) eqn:E.
  - exists m. split; [reflexivity|]. left.
    destruct k as [t| |]; try discriminate. simpl in E.
    apply String.eqb_eq in E. now subst.
  - destruct H as [H|H].
    + subst k. simpl in E. rewrite String.eqb_refl in E. discriminate.
    + destruct (IH H) as (m' & G & Hin). exists m'. split; [exact G | now right].
Qed.

Lemma group_values_str (f : string) (keys vals : Column) :
  group_values (Str f) keys vals = mask_filter (map (eq_str f) keys) vals.
Proof.
  unfold group_values. f_equal. apply map_ext. intros [s| |]; simpl; try reflexivity.
  apply String.eqb_sym.
Qed.

Lemma average_found (d : DataFrame) (f : string) (keys vals : Column) :
  get_column "flavor" d = inr keys -> get_column "units_sold" d = inr vals ->
  In (Str f) (group_keys keys) ->
  (forall k, In k (group_keys keys) -> exists m, mean (group_values k keys vals) = inr m) ->
  exists means avg,
    groupby_mean mean "flavor" "units_sold" d = inr means
    /\ series_get f means = inr avg
    /\ mean (group_values (Str f) keys vals) = inr avg.
Proof.
  intros Gk Gv Hin Hm. unfold groupby_mean. rewrite Gk, Gv.
  destruct (mean_of_groups_ok (group_keys keys) keys vals Hm) as (s & E & F & G).
  rewrite E. rewrite <- F in Hin.
  destruct (series_get_found f s Hin) as (avg & Sg & Hs).
  exists s, avg. split; [reflexivity|]. split; [exact Sg | now apply G].
Qed.

(** X16. The historical average of line 171.  In a table whose labels are
    distinct, for a flavor that occurs in the ['flavor'] column and a mean
    kernel that succeeds on every group, the lookup raises no [KeyError] and
    returns the mean of the ['units_sold'] cells of exactly the rows of that
    flavor. *)
Theorem average_of_the_selected_flavor
    (d : DataFrame) (f : string) (keys vals : Column) :
  NoDup (column_labels d) ->
  get_column "flavor" d = inr keys -> get_column "units_sold" d = inr vals ->
  In (Str f) keys ->
  (forall k, In k (group_keys keys) -> exists m, mean (group_values k keys vals) = inr m) ->
  exists means avg,
    groupby_mean mean "flavor" "units_sold" d = inr means
    /\ series_get f means = inr avg
    /\ mean (mask_filter (map (eq_str f) keys) vals) = inr avg.
Proof.
  intros _ Gk Gv Hin Hm. apply group_keys_In_str in Hin.
  destruct (average_found d f keys vals Gk Gv Hin Hm) as (means & avg & G & S & M).
  exists means, avg. split; [exact G|]. split; [exact S|].
  now rewrite <- group_values_str.
Qed.

(** *** The sidebar and the main block *)

(** X17. A selection made in the sidebar has history: in a table with
    distinct labels and a ['units_sold'] column, for a mean kernel that
    succeeds on every group, the flavor chosen in the select box occurs in
    the data and the average of line 171 is found, so the main block raises
    no [KeyError] there. *)
Theorem offered_flavor_has_an_average
    (d : DataFrame) (sel : Selection) (vals : Column) :
  NoDup (column_labels d) ->
  offered d sel ->
  get_column "units_sold" d = inr vals ->
  (forall c, exists m, mean c = inr m) ->
  exists keys means avg,
    get_column "flavor" d = inr keys
    /\ In (Str (flavor_selected sel)) keys
    /\ groupby_mean mean "flavor" "units_sold" d = inr means
    /\ series_get (flavor_selected sel) means = inr avg.
Proof.
  intros _ (flavors & weathers & locations & B & Hf & _) Gv Hm.
  unfold select_boxes in B.
  destruct (options "flavor" d) as [e|fl] eqn:Of; [discriminate|].
  destruct (options "weather" d) as [e|we]; [discriminate|].
  destruct (options "location" d) as [e|lo]; [discriminate|].
  injection B as <- <- <-.
  destruct (options_inv _ _ _ Of) as (keys & Gk & ->).
  destruct (average_found d (flavor_selected sel) keys vals Gk Gv Hf)
    as (means & avg & G & S & _).
  { intros k _. apply Hm. }
  exists keys, means, avg. split; [exact Gk|].
  split; [now apply group_keys_In_str|]. split; assumption.
Qed.

(** *** The prediction card and the recommendation *)



(** *** The charts *)



End Run.

Lemma int_mean_total (c : Column) : exists m, SessionExamples.int_mean c = inr m.
Proof. eexists. reflexivity. Qed.

Lemma average_of_the_selected_flavor_witness :
  exists means,
    groupby_mean SessionExamples.int_mean "flavor" "units_sold" SessionExamples.history
    = inr means
    /\ series_get "Oreo" means = inr (of_Z 150).
Proof.
  destruct (average_of_the_selected_flavor SessionExamples.int_mean
              SessionExamples.history "Oreo"
              [Str "Oreo"; Str "Mint"; Str "Oreo"; Str "Mint"]
              [Int 140; Int 90; Int 160; Int 110])
    as (means & avg & G & S & M).
  - repeat constructor; simpl; intuition discriminate.
  - reflexivity.
  - reflexivity.
  - simpl. tauto.
  - intros k _. apply int_mean_total.
  - exists means. split; [exact G|]. rewrite S. rewrite <- M. vm_compute. reflexivity.
Defined.

Lemma example_offered : offered SessionExamples.history EncoderExamples.sel.
Proof.
  exists [Str "Mint"; Str "Oreo"], [Str "Rainy"; Str "Sunny"], [Str "Texas"; Str "Utah"].
  split; [reflexivity|]. simpl. repeat split; try tauto; lia.
Qed.

Lemma select_boxes_need_three_columns_witness :
  select_boxes {| nrows := 1; columns := [("flavor", [Str "Oreo"])] |}
  = inl (KeyError "weather").
Proof.
  destruct (select_boxes_need_three_columns
              {| nrows := 1; columns := [("flavor", [Str "Oreo"])] |})
    as (_ & _ & W & _).
  - repeat constructor. simpl. tauto.
  - intros col c [<-|[<-|[<-|[]]]] E; vm_compute in E; try discriminate E.
    injection E as <-. reflexivity.
  - apply W; reflexivity.
Defined.

Lemma offered_flavor_has_an_average_witness :
  exists means avg,
    groupby_mean SessionExamples.int_mean "flavor" "units_sold" SessionExamples.history
    = inr means
    /\ series_get "Oreo" means = inr avg.
Proof.
  destruct (offered_flavor_has_an_average SessionExamples.int_mean
              SessionExamples.history EncoderExamples.sel
              [Int 140; Int 90; Int 160; Int 110])
    as (keys & means & avg & _ & _ & G & S).
  - repeat constructor; simpl; intuition discriminate.
  - apply example_offered.
  - reflexivity.
  - apply int_mean_total.
  - exists means, avg. split; assumption.
Defined.




End MainBlock.
